(** * Excel-Compare: the sheet diff engine of [app.py]

    A shallow embedding of [safe_str], [compare_values],
    [compare_dataframes] and [compare_excel_files], and the properties of
    the diff they compute.

    Text.  A Python [str] is modelled by a Rocq [string] whose characters
    are the code points U+0000..U+00FF (CPython's one-byte string kind).
    The functions of module [Py] are Python's [str] methods on that range. *)

From Stdlib Require Import ZArith NArith Bool Ascii String List Permutation Lia.
From Stdlib Require Import DecimalString.
From stdpp Require Import base list strings gmap sorting.
Import ListNotations.
Local Open Scope string_scope.
Local Open Scope list_scope.
Local Open Scope nat_scope.
Set Warnings "-clear-no-such-hyp".

(** ** Python text *)

Module Py.

Definition ord (c : ascii) : N := N_of_ascii c.

Definition between (lo hi n : N) : bool := ((lo <=? n) && (n <=? hi))%N.

(** [str.isspace] on one character: TAB..CR, FS..US, SPACE, NEL, NBSP. *)
Definition isspace (c : ascii) : bool :=
  between 9 13 (ord c) || between 28 32 (ord c)
  || (ord c =? 133)%N || (ord c =? 160)%N.

Fixpoint lstrip (s : list ascii) : list ascii :=
  match s with
  | c :: s' => if isspace c then lstrip s' else s
  | [] => []
  end.

(** [str.strip()]: leading and trailing white space removed. *)
Definition strip (s : string) : string :=
  string_of_list_ascii
    (rev (lstrip (rev (lstrip (list_ascii_of_string s))))).

(** [str.lower] on one character: A-Z, and the capital letters
    U+00C0..U+00DE other than the multiplication sign U+00D7. *)
Definition lower_char (c : ascii) : ascii :=
  if between 65 90 (ord c) || between 192 214 (ord c)
     || between 216 222 (ord c)
  then ascii_of_N (ord c + 32)
  else c.

Fixpoint lower (s : string) : string :=
  match s with
  | EmptyString => EmptyString
  | String c s' => String (lower_char c) (lower s')
  end.

(** Truth value of a [str]: non-empty. *)
Definition truthy (s : string) : bool := negb (String.eqb s "").

(** [str.upper] on one character.  The result can leave the one-byte
    range (U+00B5 gives U+039C, U+00FF gives U+0178) or be two characters
    (U+00DF gives "SS"), so upper-cased text is a list of code points. *)
Definition upper_char (c : ascii) : list N :=
  let n := ord c in
  if between 97 122 n || between 224 246 n || between 248 254 n
  then [(n - 32)%N]
  else if (n =? 181)%N then [924%N]
  else if (n =? 223)%N then [83%N; 83%N]
  else if (n =? 255)%N then [376%N]
  else [n].

Definition upper (s : string) : list N :=
  flat_map upper_char (list_ascii_of_string s).

(** Decimal digits: the characters 0-9. *)
Definition isdecimal_cp (n : N) : bool := between 48 57 n.

(** [str.isdigit] on one code point: the decimal digits and the
    superscript digits U+00B2, U+00B3 and U+00B9. *)
Definition isdigit_cp (n : N) : bool :=
  isdecimal_cp n || (n =? 178)%N || (n =? 179)%N || (n =? 185)%N.

(** [str.isdigit()]: non-empty and all characters digits. *)
Definition isdigit (s : list N) : bool :=
  match s with [] => false | _ => forallb isdigit_cp s end.

(** [str.isalpha] on one code point that [upper] can produce. *)
Definition isalpha_cp (n : N) : bool :=
  between 65 90 n || between 97 122 n
  || (n =? 170)%N || (n =? 181)%N || (n =? 186)%N
  || between 192 214 n || between 216 246 n || between 248 255 n
  || (n =? 376)%N || (n =? 924)%N.

Definition isalpha (s : list N) : bool :=
  match s with [] => false | _ => forallb isalpha_cp s end.

(** CPython's default limit on the digits of a decimal string given to
    [int] ([sys.int_info.default_max_str_digits]). *)
Definition int_max_str_digits : nat := 4300.

(** [int(s)] for a string [s] that passed [isdigit()]: the number when all
    characters are decimal digits and there are no more of them than the
    limit; [None], for the [ValueError] that [int] raises, otherwise. *)
Definition int (s : list N) : option Z :=
  match s with
  | [] => None
  | _ =>
      if forallb isdecimal_cp s && (length s <=? int_max_str_digits)
      then Some (fold_left (fun acc d => (10 * acc + (Z.of_N d - 48))%Z) s 0%Z)
      else None
  end.

End Py.

(** ** Data model *)

(** A DataFrame cell or column label as [safe_str] sees it: a missing
    value ([None], NaN), or a value given by its [str()] text. *)
Inductive scalar := Missing | Text (s : string).

(** A pandas DataFrame: the column labels and the rows.  [len(df)] is
    [length (data df)], [len(df.columns)] is [length (columns df)].  A
    frame is rectangular; where a row of [data] is shorter than [columns]
    the absent cells hold missing values. *)
Record DataFrame := {
  columns : list scalar;
  data : list (list scalar)
}.

(** [df.iloc[row_idx, i]]. *)
Definition iloc (df : DataFrame) (row_idx i : nat) : scalar :=
  nth i (nth row_idx (data df) []) Missing.

(** The status strings "same", "added", "deleted", "modified". *)
Inductive Status := Same | Added | Deleted | Modified.

#[export] Instance Status_eq_dec : EqDecision Status.
Proof. solve_decision. Defined.

(** A cell record [{"value": _, "old_value": _, "status": _}]. *)
Record Cell := {
  value : string;
  old_value : option string;
  status : Status
}.

(** A row record [{"status": _, "cells": _}]. *)
Record Row := {
  row_status : Status;
  cells : list Cell
}.

(** The "summary" entry of a sheet diff. *)
Record Summary := {
  total_rows : nat;
  added : nat;
  deleted : nat;
  modified : nat;
  unchanged : nat
}.

(** The dictionary returned by [compare_dataframes]. *)
Record SheetDiff := {
  headers : list string;
  rows : list Row;
  summary : Summary
}.

(** ** [safe_str] and [compare_values] *)

Definition safe_str (val : scalar) : string :=
  match val with
  | Missing => ""
  | Text s => Py.strip s
  end.

Definition compare_values (val1 val2 : string) (case_sensitive : bool) : bool :=
  if case_sensitive then String.eqb val1 val2
  else String.eqb (Py.lower val1) (Py.lower val2).

(** ** Insertion-ordered dictionaries

    [index1], [index2] and [dict.fromkeys] are Python dicts, whose key
    order is the order of first insertion; assigning to a key that is
    present replaces its value and keeps its place. *)

Definition dict (V : Type) : Type := list (string * V).

(** [d[k] = v]. *)
Fixpoint dict_set {V} (k : string) (v : V) (d : dict V) : dict V :=
  match d with
  | [] => [(k, v)]
  | (k', v') :: d' =>
      if String.eqb k k' then (k, v) :: d'
      else (k', v') :: dict_set k v d'
  end.

(** [d[k]] when [k in d]. *)
Fixpoint dict_get {V} (k : string) (d : dict V) : option V :=
  match d with
  | [] => None
  | (k', v') :: d' => if String.eqb k k' then Some v' else dict_get k d'
  end.

(** [list(d.keys())]. *)
Definition dict_keys {V} (d : dict V) : list string := map fst d.

(** [dict.fromkeys(l)]. *)
Definition dict_fromkeys (l : list string) : dict unit :=
  fold_left (fun d k => dict_set k tt d) l [].

(** ** [compare_dataframes] *)

(** The inner helper [get_row_values(df, row_idx, cols)]. *)
Definition get_row_values (df : DataFrame) (row_idx cols : nat) : list string :=
  if length (data df) <=? row_idx then repeat "" cols
  else map (fun i => if i <? length (columns df)
                     then safe_str (iloc df row_idx i) else "")
           (seq 0 cols).

(** Lines 102-106: the merged header row. *)
Definition merge_headers (headers1 headers2 : list string) (max_cols : nat)
  : list string :=
  map (fun i =>
         let h1 := nth i headers1 "" in
         let h2 := nth i headers2 "" in
         if Py.truthy h2 then h2 else h1)
      (seq 0 max_cols).

(** Updates of the [result] dictionary. *)
Definition append_row (r : Row) (res : SheetDiff) : SheetDiff :=
  {| headers := headers res; rows := rows res ++ [r]; summary := summary res |}.

Definition with_summary (f : Summary -> Summary) (res : SheetDiff) : SheetDiff :=
  {| headers := headers res; rows := rows res; summary := f (summary res) |}.

Definition incr_added (s : Summary) : Summary :=
  {| total_rows := total_rows s; added := added s + 1; deleted := deleted s;
     modified := modified s; unchanged := unchanged s |}.

Definition incr_deleted (s : Summary) : Summary :=
  {| total_rows := total_rows s; added := added s; deleted := deleted s + 1;
     modified := modified s; unchanged := unchanged s |}.

Definition incr_modified (s : Summary) : Summary :=
  {| total_rows := total_rows s; added := added s; deleted := deleted s;
     modified := modified s + 1; unchanged := unchanged s |}.

Definition incr_unchanged (s : Summary) : Summary :=
  {| total_rows := total_rows s; added := added s; deleted := deleted s;
     modified := modified s; unchanged := unchanged s + 1 |}.

Definition set_total_rows (n : nat) (s : Summary) : Summary :=
  {| total_rows := n; added := added s; deleted := deleted s;
     modified := modified s; unchanged := unchanged s |}.

(** One iteration of the cell loop (lines 162-172 and 230-240); the state
    is [(cells, has_diff)].  A row has [max_cols] entries in both callers,
    so the guarded read [row[col_idx] if col_idx < len(row) else ""] of the
    key branch and the plain read of the positional branch agree. *)
Definition compare_cells_step (row1 row2 : list string) (case_sensitive : bool)
    (st : list Cell * bool) (col_idx : nat) : list Cell * bool :=
  let v1 := nth col_idx row1 "" in
  let v2 := nth col_idx row2 "" in
  if compare_values v1 v2 case_sensitive
  then (fst st ++ [{| value := v2; old_value := None; status := Same |}],
        snd st)
  else (fst st ++ [{| value := v2; old_value := Some v1; status := Modified |}],
        true).

Definition compare_cells (row1 row2 : list string) (max_cols : nat)
    (case_sensitive : bool) : list Cell * bool :=
  fold_left (compare_cells_step row1 row2 case_sensitive) (seq 0 max_cols)
            ([], false).

(** A row present on both sides (lines 157-179 and 228-247). *)
Definition emit_compared (row1 row2 : list string) (max_cols : nat)
    (case_sensitive : bool) (res : SheetDiff) : SheetDiff :=
  let '(cells, has_diff) := compare_cells row1 row2 max_cols case_sensitive in
  if has_diff
  then with_summary incr_modified
         (append_row {| row_status := Modified; cells := cells |} res)
  else with_summary incr_unchanged
         (append_row {| row_status := Same; cells := cells |} res).

(** A row of the original side only (lines 183-188 and 221-225). *)
Definition emit_deleted (row1 : list string) (res : SheetDiff) : SheetDiff :=
  let cells :=
    map (fun v => {| value := v; old_value := None; status := Deleted |}) row1 in
  with_summary incr_deleted
    (append_row {| row_status := Deleted; cells := cells |} res).

(** A row of the compare side only (lines 192-197 and 214-218). *)
Definition emit_added (row2 : list string) (res : SheetDiff) : SheetDiff :=
  let cells :=
    map (fun v => {| value := v; old_value := None; status := Added |}) row2 in
  with_summary incr_added
    (append_row {| row_status := Added; cells := cells |} res).

(** [row[key_column] if key_column < len(row) else ""], for the
    non-negative [key_column] that line 132 lets through. *)
Definition row_key (row : list string) (key_column : Z) : string :=
  if (key_column <? Z.of_nat (length row))%Z
  then nth (Z.to_nat key_column) row ""
  else "".

(** Lines 134-139 and 141-146: [{key_value: (row_idx, row_data)}]. *)
Definition build_index (df : DataFrame) (key_column : Z) (max_cols : nat)
  : dict (nat * list string) :=
  fold_left
    (fun index idx =>
       let row := get_row_values df idx max_cols in
       let key := row_key row key_column in
       if Py.truthy key then dict_set key (idx, row) index else index)
    (seq 0 (length (data df))) [].

(** Line 149. *)
Definition all_keys {V W} (index1 : dict V) (index2 : dict W) : list string :=
  dict_keys (dict_fromkeys (dict_keys index1 ++ dict_keys index2)).

(** One iteration of the loop over [all_keys] (lines 151-197).  Every key
    of [all_keys] is in an index, so the last case does not occur. *)
Definition key_step (index1 index2 : dict (nat * list string))
    (max_cols : nat) (case_sensitive : bool)
    (res : SheetDiff) (key : string) : SheetDiff :=
  match dict_get key index1, dict_get key index2 with
  | Some (_, row1), Some (_, row2) =>
      emit_compared row1 row2 max_cols case_sensitive res
  | Some (_, row1), None => emit_deleted row1 res
  | None, Some (_, row2) => emit_added row2 res
  | None, None => res
  end.

(** Lines 133-199. *)
Definition compare_by_key (df1 df2 : DataFrame) (key_column : Z)
    (max_cols : nat) (case_sensitive : bool) (result : SheetDiff) : SheetDiff :=
  let index1 := build_index df1 key_column max_cols in
  let index2 := build_index df2 key_column max_cols in
  let result :=
    fold_left (key_step index1 index2 max_cols case_sensitive)
              (all_keys index1 index2) result in
  with_summary (set_total_rows (length (rows result))) result.

(** One iteration of the positional loop (lines 205-247). *)
Definition position_step (df1 df2 : DataFrame) (max_cols : nat)
    (case_sensitive : bool) (res : SheetDiff) (row_idx : nat) : SheetDiff :=
  let has_row1 := row_idx <? length (data df1) in
  let has_row2 := row_idx <? length (data df2) in
  let row1 := get_row_values df1 row_idx max_cols in
  let row2 := get_row_values df2 row_idx max_cols in
  if negb has_row1 then emit_added row2 res
  else if negb has_row2 then emit_deleted row1 res
  else emit_compared row1 row2 max_cols case_sensitive res.

(** Lines 202-249. *)
Definition compare_by_position (df1 df2 : DataFrame) (max_cols : nat)
    (case_sensitive : bool) (result : SheetDiff) : SheetDiff :=
  let max_rows := max (length (data df1)) (length (data df2)) in
  let result :=
    fold_left (position_step df1 df2 max_cols case_sensitive)
              (seq 0 max_rows) result in
  with_summary (set_total_rows max_rows) result.

Definition empty_summary : Summary :=
  {| total_rows := 0; added := 0; deleted := 0; modified := 0; unchanged := 0 |}.

Definition compare_dataframes (df1 df2 : DataFrame) (key_column : option Z)
    (case_sensitive : bool) : SheetDiff :=
  let headers1 := map safe_str (columns df1) in
  let headers2 := map safe_str (columns df2) in
  let max_cols := max (length headers1) (length headers2) in
  let merged_headers := merge_headers headers1 headers2 max_cols in
  let result :=
    {| headers := merged_headers; rows := []; summary := empty_summary |} in
  match key_column with
  | Some k =>
      if ((0 <=? k) && (k <? Z.of_nat max_cols))%Z
      then compare_by_key df1 df2 k max_cols case_sensitive result
      else compare_by_position df1 df2 max_cols case_sensitive result
  | None => compare_by_position df1 df2 max_cols case_sensitive result
  end.

(** ** [compare_excel_files] *)

Inductive exn := ValueError.

(** The outcome of a call: a value, or a raised exception. *)
Inductive result (A : Type) :=
| Ok (a : A)
| Raise (e : exn).
Arguments Ok {A} a.
Arguments Raise {A} e.

(** Lines 268-275: the key column given as "A"/"B"/"C" or "1"/"2"/"3". *)
Definition parse_key_column (key_column : option string) : result (option Z) :=
  match key_column with
  | None => Ok None
  | Some spec =>
      if Py.truthy spec then
        let key_column := Py.upper (Py.strip spec) in
        if Py.isdigit key_column then
          match Py.int key_column with
          | Some v => Ok (Some (v - 1)%Z)
          | None => Raise ValueError
          end
        else if (length key_column =? 1) && Py.isalpha key_column then
          Ok (Some (Z.of_N (nth 0 key_column 0%N) - 65)%Z)
        else Ok None
      else Ok None
  end.

(** The order of [str]: by code points. *)
Definition str_le (a b : string) : Prop := String.leb a b = true.

#[export] Instance str_le_dec a b : Decision (str_le a b).
Proof. unfold str_le. apply _. Defined.

#[export] Instance str_le_total : Total str_le.
Proof. intros a b. apply String.leb_total. Qed.

(** [sorted(names)]. *)
Definition sorted (names : list string) : list string := merge_sort str_le names.

(** [pd.DataFrame()]. *)
Definition empty_frame : DataFrame := {| columns := []; data := [] |}.

Record WorkbookSummary := {
  total_differences : nat;
  wb_added : nat;
  wb_deleted : nat;
  wb_modified : nat
}.

(** The dictionary returned by [compare_excel_files]; the entries of
    "sheets" are inserted in the order of "sheet_list". *)
Record WorkbookDiff := {
  file1 : string;
  file2 : string;
  sheets : gmap string SheetDiff;
  sheet_list : list string;
  wb_summary : WorkbookSummary
}.

(** Lines 277-283. *)
Definition sheets_to_compare (sheets1 sheets2 : gmap string DataFrame)
    (sheet_name : option string) : list string :=
  match sheet_name with
  | Some name =>
      if Py.truthy name && negb (String.eqb name "all")
      then if bool_decide (is_Some (sheets1 !! name))
              || bool_decide (is_Some (sheets2 !! name))
           then [name] else []
      else elements (dom sheets1 ∪ dom sheets2)
  | None => elements (dom sheets1 ∪ dom sheets2)
  end.

(** One iteration of the loop over the sheets (lines 293-303). *)
Definition sheet_step (sheets1 sheets2 : gmap string DataFrame)
    (key_col_idx : option Z) (case_sensitive : bool)
    (res : WorkbookDiff) (sname : string) : WorkbookDiff :=
  let df1 := default empty_frame (sheets1 !! sname) in
  let df2 := default empty_frame (sheets2 !! sname) in
  let diff := compare_dataframes df1 df2 key_col_idx case_sensitive in
  {| file1 := file1 res;
     file2 := file2 res;
     sheets := <[sname := diff]> (sheets res);
     sheet_list := sheet_list res;
     wb_summary :=
       {| total_differences := total_differences (wb_summary res);
          wb_added := wb_added (wb_summary res) + added (summary diff);
          wb_deleted := wb_deleted (wb_summary res) + deleted (summary diff);
          wb_modified := wb_modified (wb_summary res) + modified (summary diff) |} |}.

(** [compare_excel_files], from the two workbooks that [read_excel_file]
    returned for the two files. *)
Definition compare_excel_files (sheets1 sheets2 : gmap string DataFrame)
    (file1_name file2_name : string) (sheet_name key_column : option string)
    (case_sensitive : bool) : result WorkbookDiff :=
  match parse_key_column key_column with
  | Raise e => Raise e
  | Ok key_col_idx =>
      let names := sorted (sheets_to_compare sheets1 sheets2 sheet_name) in
      let result :=
        {| file1 := file1_name; file2 := file2_name; sheets := ∅;
           sheet_list := names;
           wb_summary := {| total_differences := 0; wb_added := 0;
                            wb_deleted := 0; wb_modified := 0 |} |} in
      let result :=
        fold_left (sheet_step sheets1 sheets2 key_col_idx case_sensitive)
                  names result in
      let s := wb_summary result in
      Ok {| file1 := file1 result; file2 := file2 result;
            sheets := sheets result; sheet_list := sheet_list result;
            wb_summary :=
              {| total_differences := wb_added s + wb_deleted s + wb_modified s;
                 wb_added := wb_added s; wb_deleted := wb_deleted s;
                 wb_modified := wb_modified s |} |}
  end.

(** ** What the loops compute *)

(** The cell that one step of the cell loop appends. *)
Definition cell_of (v1 v2 : string) (case_sensitive : bool) : Cell :=
  if compare_values v1 v2 case_sensitive
  then {| value := v2; old_value := None; status := Same |}
  else {| value := v2; old_value := Some v1; status := Modified |}.

Definition cell_at (row1 row2 : list string) (case_sensitive : bool)
    (col_idx : nat) : Cell :=
  cell_of (nth col_idx row1 "") (nth col_idx row2 "") case_sensitive.

Definition differs_at (row1 row2 : list string) (case_sensitive : bool)
    (col_idx : nat) : bool :=
  negb (compare_values (nth col_idx row1 "") (nth col_idx row2 "") case_sensitive).

(** The row that [emit_compared] appends. *)
Definition compared_row (row1 row2 : list string) (max_cols : nat)
    (case_sensitive : bool) : Row :=
  {| row_status :=
       if existsb (differs_at row1 row2 case_sensitive) (seq 0 max_cols)
       then Modified else Same;
     cells := map (cell_at row1 row2 case_sensitive) (seq 0 max_cols) |}.

(** The row that [emit_added] and [emit_deleted] append. *)
Definition side_row (st : Status) (row : list string) : Row :=
  {| row_status := st;
     cells := map (fun v => {| value := v; old_value := None; status := st |}) row |}.

(** The counter that goes with a row status. *)
Definition tally (st : Status) : Summary -> Summary :=
  match st with
  | Same => incr_unchanged
  | Added => incr_added
  | Deleted => incr_deleted
  | Modified => incr_modified
  end.

Definition push (res : SheetDiff) (r : Row) : SheetDiff :=
  with_summary (tally (row_status r)) (append_row r res).

(** The row of one key, if the key is in an index. *)
Definition key_row (index1 index2 : dict (nat * list string))
    (max_cols : nat) (case_sensitive : bool) (key : string) : option Row :=
  match dict_get key index1, dict_get key index2 with
  | Some (_, row1), Some (_, row2) =>
      Some (compared_row row1 row2 max_cols case_sensitive)
  | Some (_, row1), None => Some (side_row Deleted row1)
  | None, Some (_, row2) => Some (side_row Added row2)
  | None, None => None
  end.

(** The row of one position. *)
Definition position_row (df1 df2 : DataFrame) (max_cols : nat)
    (case_sensitive : bool) (row_idx : nat) : Row :=
  if negb (row_idx <? length (data df1))
  then side_row Added (get_row_values df2 row_idx max_cols)
  else if negb (row_idx <? length (data df2))
  then side_row Deleted (get_row_values df1 row_idx max_cols)
  else compared_row (get_row_values df1 row_idx max_cols)
                    (get_row_values df2 row_idx max_cols) max_cols case_sensitive.

(** The number of rows of a status. *)
Definition count_status (st : Status) (rs : list Row) : nat :=
  length (filter (fun r => row_status r = st) rs).

(** The result dictionary that holds the rows [rs], each counted once. *)
Definition result_of (hs : list string) (rs : list Row) : SheetDiff :=
  {| headers := hs;
     rows := rs;
     summary := {| total_rows := length rs;
                   added := count_status Added rs;
                   deleted := count_status Deleted rs;
                   modified := count_status Modified rs;
                   unchanged := count_status Same rs |} |}.

(** [max_cols] of two frames. *)
Definition max_cols_of (df1 df2 : DataFrame) : nat :=
  max (length (map safe_str (columns df1))) (length (map safe_str (columns df2))).

Definition merged_headers_of (df1 df2 : DataFrame) : list string :=
  merge_headers (map safe_str (columns df1)) (map safe_str (columns df2))
                (max_cols_of df1 df2).

(** Whether line 132 selects key matching. *)
Definition key_matching (key_column : option Z) (max_cols : nat) : option Z :=
  match key_column with
  | Some k => if ((0 <=? k) && (k <? Z.of_nat max_cols))%Z then Some k else None
  | None => None
  end.

(** The rows of the diff, by strategy. *)
Definition key_rows (df1 df2 : DataFrame) (key_column : Z) (max_cols : nat)
    (case_sensitive : bool) : list Row :=
  let index1 := build_index df1 key_column max_cols in
  let index2 := build_index df2 key_column max_cols in
  omap (key_row index1 index2 max_cols case_sensitive) (all_keys index1 index2).

Definition position_rows (df1 df2 : DataFrame) (max_cols : nat)
    (case_sensitive : bool) : list Row :=
  map (position_row df1 df2 max_cols case_sensitive)
      (seq 0 (max (length (data df1)) (length (data df2)))).

Definition diff_rows (df1 df2 : DataFrame) (key_column : option Z)
    (case_sensitive : bool) : list Row :=
  let max_cols := max_cols_of df1 df2 in
  match key_matching key_column max_cols with
  | Some k => key_rows df1 df2 k max_cols case_sensitive
  | None => position_rows df1 df2 max_cols case_sensitive
  end.

(** ** Keys *)

(** The elements of [l] not in [seen], each at its first appearance. *)
Fixpoint first_new (seen l : list string) : list string :=
  match l with
  | [] => []
  | k :: l' =>
      if decide (k ∈ seen) then first_new seen l'
      else k :: first_new (k :: seen) l'
  end.

(** One iteration of an index loop: [(kf a, vf a)] is entered when the key
    is non-empty. *)
Definition index_step {A V} (kf : A -> string) (vf : A -> V)
    (index : dict V) (a : A) : dict V :=
  if Py.truthy (kf a) then dict_set (kf a) (vf a) index else index.

(** The key value of row [idx]: the string at the key column of the row
    padded to [max_cols] entries. *)
Definition key_value (df : DataFrame) (key_column : Z) (max_cols idx : nat)
  : string :=
  row_key (get_row_values df idx max_cols) key_column.

(** The key sequence of a table, row after row. *)
Definition key_values (df : DataFrame) (key_column : Z) (max_cols : nat)
  : list string :=
  map (key_value df key_column max_cols) (seq 0 (length (data df))).

Definition non_empty_keys (keys : list string) : list string :=
  filter (fun s => s <> "") keys.

(** A row of the diff is an added row of the compare side, a deleted row of
    the original side, or the comparison of a row of each side. *)
Inductive row_origin (df1 df2 : DataFrame) (n : nat) (cs : bool) : Row -> Prop :=
| origin_added i2 :
    i2 < length (data df2) ->
    row_origin df1 df2 n cs (side_row Added (get_row_values df2 i2 n))
| origin_deleted i1 :
    i1 < length (data df1) ->
    row_origin df1 df2 n cs (side_row Deleted (get_row_values df1 i1 n))
| origin_compared i1 i2 :
    i1 < length (data df1) -> i2 < length (data df2) ->
    row_origin df1 df2 n cs
      (compared_row (get_row_values df1 i1 n) (get_row_values df2 i2 n) n cs).

(** ** The specification's own definitions *)

(** The merged header entry in the words of the specification:
    [headers2[i]] when that exists and is non-empty, else [headers1[i]]
    when that exists and is non-empty, else the empty string. *)
Definition spec_merged_entry (headers1 headers2 : list string) (i : nat)
  : string :=
  match headers2 !! i with
  | Some h2 =>
      if decide (h2 <> "") then h2
      else match headers1 !! i with
           | Some h1 => if decide (h1 <> "") then h1 else ""
           | None => ""
           end
  | None =>
      match headers1 !! i with
      | Some h1 => if decide (h1 <> "") then h1 else ""
      | None => ""
      end
  end.

(** The index of a table in the words of the specification: the rows with
    a non-empty key value are entered under their key value, and of the
    rows that share a key value the last one stays. *)
Definition spec_index_lookup (df : DataFrame) (key_column : Z)
    (max_cols : nat) (key : string) : option (nat * list string) :=
  if decide (key = "") then None
  else (fun idx => (idx, get_row_values df idx max_cols))
         <$> last (filter (fun idx => key_value df key_column max_cols idx = key)
                          (seq 0 (length (data df)))).

(** The iteration order in the words of the specification: the non-empty
    keys of A at first appearance, then the non-empty keys of B that are new,
    at first appearance. *)
Definition spec_key_order (keysA keysB : list string) : list string :=
  first_new [] (non_empty_keys keysA)
  ++ first_new (non_empty_keys keysA) (non_empty_keys keysB).

(** ** Swapping the two inputs *)

Definition mirror_status (st : Status) : Status :=
  match st with
  | Added => Deleted
  | Deleted => Added
  | Same => Same
  | Modified => Modified
  end.

(** A cell [c] of the diff of (A, B) against the cell [c'] of the diff of
    (B, A): a modified cell has [old_value] and [value] swapped; an added
    cell is a deleted cell with the same value, and conversely; a same cell
    is a same cell, with the same value when [case_sensitive] is true and
    with a value equal up to letter case otherwise (each diff shows the
    string of its own compare side). *)
Definition mirrored_cell (case_sensitive : bool) (c c' : Cell) : Prop :=
  status c' = mirror_status (status c)
  /\ match status c with
     | Modified =>
         old_value c = Some (value c') /\ old_value c' = Some (value c)
     | Same =>
         old_value c = None /\ old_value c' = None
         /\ if case_sensitive then value c' = value c
            else Py.lower (value c') = Py.lower (value c)
     | Added | Deleted =>
         old_value c = None /\ old_value c' = None /\ value c' = value c
     end.

Definition mirrored_row (case_sensitive : bool) (r r' : Row) : Prop :=
  row_status r' = mirror_status (row_status r)
  /\ Forall2 (mirrored_cell case_sensitive) (cells r) (cells r').

(** With [case_sensitive = true] a same row is the same record in both
    diffs. *)
Definition same_row_kept (case_sensitive : bool) (r r' : Row) : Prop :=
  if case_sensitive then row_status r = Same -> r' = r else True.

(** ** Example frames *)

Definition frame (hdr : list string) (rws : list (list string)) : DataFrame :=
  {| columns := map Text hdr; data := map (map Text) rws |}.

(** The tables A and B of the specification's scenarios. *)
Definition tableA : DataFrame :=
  frame ["id"; "name"] [["1"; "Alice"]; ["2"; "Bob"]].

Definition tableB : DataFrame :=
  frame ["id"; "name"] [["1"; "Alice"]; ["3"; "Carol"]].

(** A table that shares no key with [tableA]; its second row has no key. *)
Definition tableC : DataFrame :=
  frame ["id"; "name"] [["7"; "Dora"]; [""; "Eve"]].

(** Two rows of this table share the key "1", one row has no key. *)
Definition tableD : DataFrame :=
  frame ["id"; "name"] [["1"; "Ann"]; [""; "Ghost"]; ["2"; "Bob"]; ["1"; "Zed"]].

Definition tableE : DataFrame :=
  frame ["id"; "name"] [["9"; "New"]; ["2"; "Bob"]; ["1"; "Zed"]].

Definition one_cell (s : string) : DataFrame := frame ["h"] [[s]].

Definition ids12 : DataFrame := frame ["id"] [["1"]; ["2"]].

Definition ids21 : DataFrame := frame ["id"] [["2"]; ["1"]].

Definition lowerOnly : DataFrame := frame ["k"] [["abc"]].

Definition upperOnly : DataFrame := frame ["k"] [["ABC"]].

Definition bothCases : DataFrame := frame ["k"] [["abc"]; ["ABC"]].

(** The one-character string U+00B2, superscript two. *)
Definition superscript_two : string := String "178"%char "".

(** ** Normalised frames and per-sheet results *)

(** The frame with every label and cell replaced by its [safe_str] text. *)
Definition normalize (df : DataFrame) : DataFrame :=
  {| columns := map (fun v => Text (safe_str v)) (columns df);
     data := map (map (fun v => Text (safe_str v))) (data df) |}.

(** The frame with the same columns and other rows. *)
Definition with_data (df : DataFrame) (rws : list (list scalar)) : DataFrame :=
  {| columns := columns df; data := rws |}.

(** The diff that the sheet loop stores for the sheet [sname]. *)
Definition sheet_diff (sheets1 sheets2 : gmap string DataFrame)
    (key_col_idx : option Z) (case_sensitive : bool) (sname : string)
  : SheetDiff :=
  compare_dataframes (default empty_frame (sheets1 !! sname))
                     (default empty_frame (sheets2 !! sname))
                     key_col_idx case_sensitive.

(** The sum of a counter over the sheets [names]. *)
Definition sum_over (f : string -> nat) (names : list string) : nat :=
  fold_right (fun sname acc => f sname + acc) 0 names.

(** A character of the ASCII range. *)
Definition is_ascii (c : ascii) : Prop := (Py.ord c < 128)%N.

(** One-letter key-column specifications, by letter index. *)
Definition upper_letter (i : nat) : string :=
  String (ascii_of_nat (65 + i)) "".

Definition lower_letter (i : nat) : string :=
  String (ascii_of_nat (97 + i)) "".

(** A row of the case-sensitive diff against the row of the
    case-insensitive diff at the same place: the same record, unless the
    first is a modified row, which then can be a same row in the second. *)
Definition coarser_row (rs ri : Row) : Prop :=
  map value (cells ri) = map value (cells rs)
  /\ (ri = rs
      \/ (row_status rs = Modified
          /\ (row_status ri = Same \/ row_status ri = Modified))).

(** The strings that [get_row_values] returns for a stored row [row] of a
    frame with [width] columns. *)
Definition pad_row (width cols : nat) (row : list scalar) : list string :=
  map (fun i => if i <? width then safe_str (nth i row Missing) else "")
      (seq 0 cols).

(** A list of characters that does not start with white space. *)
Definition no_leading_space (l : list ascii) : Prop :=
  match l with
  | c :: _ => Py.isspace c = false
  | [] => True
  end.

(** Whether the sheet selector lets the sheet [name] through: a selector
    that is absent, empty or "all" selects every sheet. *)
Definition selected (sheet_name : option string) (name : string) : Prop :=
  match sheet_name with
  | Some s => if Py.truthy s && negb (String.eqb s "all") then name = s else True
  | None => True
  end.

(** The result for no sheet at all. *)
Definition empty_workbook_diff (file1_name file2_name : string) : WorkbookDiff :=
  {| file1 := file1_name; file2 := file2_name; sheets := ∅; sheet_list := [];
     wb_summary := {| total_differences := 0; wb_added := 0;
                      wb_deleted := 0; wb_modified := 0 |} |}.

(** A decimal digit as [parse_key_column] meets it: no white space, its
    own upper case, and a decimal digit for [int]. *)
Definition digit_char (c : ascii) : Prop :=
  Py.isspace c = false
  /\ Py.upper_char c = [Py.ord c]
  /\ Py.isdecimal_cp (Py.ord c) = true.

(** ** Facts on dictionaries and key order *)

Lemma truthy_spec s : Py.truthy s = true <-> s <> "".
Proof.
  unfold Py.truthy. destruct (String.eqb_spec s ""); simpl; split;
    congruence.
Qed.

Section DictFacts.
Context {V : Type}.
Implicit Types (d : dict V) (k : string) (v : V).

Lemma dict_get_set k k' v d :
  dict_get k' (dict_set k v d)
  = if decide (k' = k) then Some v else dict_get k' d.
Proof.
  induction d as [|[k0 v0] d IH]; simpl.
  - destruct (String.eqb_spec k' k), (decide (k' = k)); congruence.
  - destruct (String.eqb_spec k k0) as [->|Hne]; simpl.
    + destruct (String.eqb_spec k' k0), (decide (k' = k0)); congruence.
    + rewrite IH.
      destruct (String.eqb_spec k' k0), (decide (k' = k)); congruence.
Qed.

Lemma dict_get_Some_keys k d :
  k ∈ dict_keys d <-> is_Some (dict_get k d).
Proof.
  induction d as [|[k0 v0] d IH]; simpl.
  - split; [intros H; inversion H | intros [? ?]; discriminate].
  - rewrite elem_of_cons, IH.
    destruct (String.eqb_spec k k0); split; eauto; intros [?|?]; eauto.
    congruence.
Qed.

Lemma dict_get_None_keys k d :
  k ∉ dict_keys d <-> dict_get k d = None.
Proof. rewrite dict_get_Some_keys, eq_None_not_Some. reflexivity. Qed.

Lemma dict_keys_set k v d :
  dict_keys (dict_set k v d)
  = if decide (k ∈ dict_keys d) then dict_keys d else dict_keys d ++ [k].
Proof.
  induction d as [|[k0 v0] d IH]; simpl; [reflexivity|].
  destruct (String.eqb_spec k k0) as [->|Hne]; simpl.
  - destruct (decide (k0 ∈ k0 :: dict_keys d)) as [|H]; [reflexivity|].
    exfalso; apply H; left.
  - fold (dict_keys (dict_set k v d)). rewrite IH.
    destruct (decide (k ∈ dict_keys d)) as [Hin|Hin],
             (decide (k ∈ k0 :: dict_keys d)) as [Hin'|Hin'];
      try reflexivity.
    + exfalso; apply Hin'; now right.
    + apply elem_of_cons in Hin' as [?|?]; congruence.
Qed.

End DictFacts.

Lemma first_new_ext s1 s2 l :
  (forall x, x ∈ s1 <-> x ∈ s2) -> first_new s1 l = first_new s2 l.
Proof.
  revert s1 s2. induction l as [|k l IH]; intros s1 s2 H; simpl; [reflexivity|].
  destruct (decide (k ∈ s1)) as [H1|H1], (decide (k ∈ s2)) as [H2|H2].
  - now apply IH.
  - apply H in H1; contradiction.
  - apply H in H2; contradiction.
  - f_equal. apply IH. intros x. rewrite !elem_of_cons, H. reflexivity.
Qed.

Lemma elem_of_first_new s l x :
  x ∈ first_new s l <-> x ∈ l /\ x ∉ s.
Proof.
  revert s. induction l as [|k l IH]; intros s; simpl.
  - split; [intros H; inversion H | intros [H _]; inversion H].
  - destruct (decide (k ∈ s)) as [Hk|Hk].
    + rewrite IH, elem_of_cons. split; [tauto|].
      intros [[->|?] ?]; [contradiction | tauto].
    + rewrite !elem_of_cons, IH, elem_of_cons.
      destruct (decide (x = k)) as [->|]; tauto.
Qed.

Lemma NoDup_first_new s l : NoDup (first_new s l).
Proof.
  revert s. induction l as [|k l IH]; intros s; simpl; [constructor|].
  destruct (decide (k ∈ s)); [apply IH|].
  constructor; [|apply IH].
  rewrite elem_of_first_new, elem_of_cons. tauto.
Qed.

Lemma first_new_app s l1 l2 :
  first_new s (l1 ++ l2) = first_new s l1 ++ first_new (l1 ++ s) l2.
Proof.
  revert s. induction l1 as [|k l1 IH]; intros s; simpl; [reflexivity|].
  destruct (decide (k ∈ s)) as [Hk|Hk].
  - rewrite IH. f_equal. apply first_new_ext. set_solver.
  - simpl. rewrite IH. do 2 f_equal. apply first_new_ext. set_solver.
Qed.

Lemma first_new_first_new s t l :
  first_new s (first_new t l) = first_new (s ++ t) l.
Proof.
  revert s t. induction l as [|k l IH]; intros s t; simpl; [reflexivity|].
  destruct (decide (k ∈ t)) as [Ht|Ht].
  - rewrite IH. destruct (decide (k ∈ s ++ t)) as [|H]; [reflexivity|].
    set_solver.
  - simpl. destruct (decide (k ∈ s)) as [Hs|Hs].
    + rewrite IH. destruct (decide (k ∈ s ++ t)) as [|H]; [|set_solver].
      apply first_new_ext. set_solver.
    + rewrite IH. destruct (decide (k ∈ s ++ t)) as [H|H]; [set_solver|].
      f_equal. apply first_new_ext. set_solver.
Qed.

Lemma first_new_NoDup l : NoDup l -> first_new [] l = l.
Proof.
  assert (G : forall s, NoDup l -> (forall x, x ∈ l -> x ∉ s) -> first_new s l = l).
  { induction l as [|k l IH]; intros s Hnd Hs; simpl; [reflexivity|].
    apply NoDup_cons in Hnd as [Hk Hnd].
    destruct (decide (k ∈ s)) as [Hin|_].
    - exfalso. apply (Hs k); [left | assumption].
    - f_equal. apply IH; [assumption|].
      intros x Hx. rewrite elem_of_cons. intros [->|Hxs]; [contradiction|].
      apply (Hs x); [now right | assumption]. }
  intros Hnd. apply G; [assumption|]. intros x _ H. inversion H.
Qed.

(** Inserting keys one after the other lists them at first appearance. *)
Lemma dict_keys_fold_set {V A} (kf : A -> string) (vf : A -> V) l (d : dict V) :
  dict_keys (fold_left (fun d a => dict_set (kf a) (vf a) d) l d)
  = dict_keys d ++ first_new (dict_keys d) (map kf l).
Proof.
  revert d. induction l as [|a l IH]; intros d; simpl.
  - now rewrite app_nil_r.
  - rewrite IH, dict_keys_set.
    destruct (decide (kf a ∈ dict_keys d)) as [Hin|Hin]; [reflexivity|].
    rewrite <- app_assoc. simpl. do 2 f_equal. apply first_new_ext. intros x.
    rewrite elem_of_app, !elem_of_cons, elem_of_nil. tauto.
Qed.

Lemma dict_keys_fromkeys l : dict_keys (dict_fromkeys l) = first_new [] l.
Proof.
  unfold dict_fromkeys.
  rewrite (dict_keys_fold_set (fun k => k) (fun _ => tt)); simpl.
  now rewrite map_id.
Qed.

(** A loop that enters [(kf a, vf a)] for the [a] with a non-empty key. *)
Section IndexLoop.
Context {A V : Type} (kf : A -> string) (vf : A -> V).

Lemma index_loop_get key l :
  dict_get key (fold_left (index_step kf vf) l [])
  = if decide (key = "") then None
    else vf <$> last (filter (fun a => kf a = key) l).
Proof.
  induction l as [|a l IH] using rev_ind.
  - simpl. now destruct (decide _).
  - rewrite fold_left_app; simpl. unfold index_step at 1.
    rewrite filter_app, filter_cons, filter_nil.
    destruct (Py.truthy (kf a)) eqn:Ht.
    + apply truthy_spec in Ht. rewrite dict_get_set, IH.
      destruct (decide (key = kf a)) as [->|Hne].
      * rewrite (decide_True (P := kf a = kf a)) by reflexivity.
        rewrite last_snoc.
        now rewrite (decide_False (P := kf a = "")) by assumption.
      * rewrite (decide_False (P := kf a = key)) by congruence.
        now rewrite app_nil_r.
    + rewrite IH. apply not_true_iff_false in Ht. rewrite truthy_spec in Ht.
      destruct (decide (key = "")) as [|Hne]; [reflexivity|].
      rewrite (decide_False (P := kf a = key)).
      * now rewrite app_nil_r.
      * intros E. apply Ht. intros E'. apply Hne. congruence.
Qed.

Lemma index_loop_filter l d :
  fold_left (index_step kf vf) l d
  = fold_left (fun d a => dict_set (kf a) (vf a) d)
              (filter (fun a => kf a <> "") l) d.
Proof.
  revert d. induction l as [|a l IH]; intros d; simpl; [reflexivity|].
  rewrite IH, filter_cons. unfold index_step.
  destruct (Py.truthy (kf a)) eqn:Ht.
  - apply truthy_spec in Ht. now rewrite decide_True.
  - apply not_true_iff_false in Ht. rewrite truthy_spec in Ht.
    now rewrite decide_False.
Qed.

Lemma map_filter_non_empty l :
  map kf (filter (fun a => kf a <> "") l)
  = filter (fun s => s <> "") (map kf l).
Proof.
  induction l as [|a l IH]; simpl; [reflexivity|].
  rewrite !filter_cons. destruct (decide (kf a <> "")); simpl; now rewrite IH.
Qed.

Lemma index_loop_keys l :
  dict_keys (fold_left (index_step kf vf) l [])
  = first_new [] (filter (fun s => s <> "") (map kf l)).
Proof.
  rewrite index_loop_filter, dict_keys_fold_set; simpl.
  now rewrite map_filter_non_empty.
Qed.

End IndexLoop.

Lemma build_index_loop df k n :
  build_index df k n
  = fold_left (index_step (key_value df k n)
                          (fun idx => (idx, get_row_values df idx n)))
              (seq 0 (length (data df))) [].
Proof. reflexivity. Qed.

Lemma build_index_keys df k n :
  dict_keys (build_index df k n)
  = first_new [] (non_empty_keys (key_values df k n)).
Proof. rewrite build_index_loop. apply index_loop_keys. Qed.

Lemma build_index_get df k n key :
  dict_get key (build_index df k n)
  = if decide (key = "") then None
    else (fun idx => (idx, get_row_values df idx n))
           <$> last (filter (fun idx => key_value df k n idx = key)
                            (seq 0 (length (data df)))).
Proof. rewrite build_index_loop. apply index_loop_get. Qed.

Lemma all_keys_eq {V W} (index1 : dict V) (index2 : dict W) :
  all_keys index1 index2
  = first_new [] (dict_keys index1 ++ dict_keys index2).
Proof. unfold all_keys. apply dict_keys_fromkeys. Qed.

(** Line 149 on the two indexes: the keys of A at first appearance, then
    the keys of B that A lacks, at first appearance. *)
Lemma all_keys_build_index df1 df2 k n :
  all_keys (build_index df1 k n) (build_index df2 k n)
  = first_new [] (non_empty_keys (key_values df1 k n))
    ++ first_new (non_empty_keys (key_values df1 k n))
                 (non_empty_keys (key_values df2 k n)).
Proof.
  rewrite all_keys_eq, !build_index_keys, first_new_app.
  rewrite first_new_NoDup by apply NoDup_first_new.
  f_equal. rewrite first_new_first_new. apply first_new_ext.
  intros x. rewrite !elem_of_app, elem_of_first_new. set_solver.
Qed.

Lemma elem_of_all_keys {V W} (index1 : dict V) (index2 : dict W) key :
  key ∈ all_keys index1 index2
  <-> key ∈ dict_keys index1 \/ key ∈ dict_keys index2.
Proof. rewrite all_keys_eq, elem_of_first_new, elem_of_app. set_solver. Qed.

Lemma NoDup_all_keys {V W} (index1 : dict V) (index2 : dict W) :
  NoDup (all_keys index1 index2).
Proof. rewrite all_keys_eq. apply NoDup_first_new. Qed.

Lemma all_keys_swap {V W} (index1 : dict V) (index2 : dict W) :
  all_keys index1 index2 ≡ₚ all_keys index2 index1.
Proof.
  apply NoDup_Permutation; try apply NoDup_all_keys.
  intros key. rewrite !elem_of_all_keys. tauto.
Qed.

(** ** The loops of [compare_dataframes] *)

Lemma compare_cells_step_eq row1 row2 cs acc b i :
  compare_cells_step row1 row2 cs (acc, b) i
  = (acc ++ [cell_at row1 row2 cs i], b || differs_at row1 row2 cs i).
Proof.
  unfold compare_cells_step, cell_at, cell_of, differs_at; simpl.
  destruct (compare_values _ _ cs); simpl.
  - now rewrite orb_false_r.
  - now rewrite orb_true_r.
Qed.

Lemma compare_cells_fold row1 row2 cs l acc b :
  fold_left (compare_cells_step row1 row2 cs) l (acc, b)
  = (acc ++ map (cell_at row1 row2 cs) l,
     b || existsb (differs_at row1 row2 cs) l).
Proof.
  revert acc b. induction l as [|i l IH]; intros acc b; simpl.
  - now rewrite app_nil_r, orb_false_r.
  - rewrite compare_cells_step_eq, IH, <- app_assoc, orb_assoc. reflexivity.
Qed.

Lemma compare_cells_eq row1 row2 n cs :
  compare_cells row1 row2 n cs
  = (map (cell_at row1 row2 cs) (seq 0 n),
     existsb (differs_at row1 row2 cs) (seq 0 n)).
Proof. unfold compare_cells. now rewrite compare_cells_fold. Qed.

Lemma emit_compared_push row1 row2 n cs res :
  emit_compared row1 row2 n cs res = push res (compared_row row1 row2 n cs).
Proof.
  unfold emit_compared, compared_row, push. rewrite compare_cells_eq.
  now destruct (existsb _ _).
Qed.

Lemma emit_added_push row2 res : emit_added row2 res = push res (side_row Added row2).
Proof. reflexivity. Qed.

Lemma emit_deleted_push row1 res :
  emit_deleted row1 res = push res (side_row Deleted row1).
Proof. reflexivity. Qed.

Lemma key_step_push index1 index2 n cs res key :
  key_step index1 index2 n cs res key
  = match key_row index1 index2 n cs key with
    | Some r => push res r
    | None => res
    end.
Proof.
  unfold key_step, key_row.
  destruct (dict_get key index1) as [[? row1]|],
           (dict_get key index2) as [[? row2]|];
    auto using emit_compared_push.
Qed.

Lemma position_step_push df1 df2 n cs res i :
  position_step df1 df2 n cs res i = push res (position_row df1 df2 n cs i).
Proof.
  unfold position_step, position_row.
  destruct (negb (i <? length (data df1))); [reflexivity|].
  destruct (negb (i <? length (data df2))); [reflexivity|].
  apply emit_compared_push.
Qed.

Lemma count_status_app st rs1 rs2 :
  count_status st (rs1 ++ rs2) = count_status st rs1 + count_status st rs2.
Proof. unfold count_status. now rewrite filter_app, length_app. Qed.

Lemma count_status_one st r :
  count_status st [r] = if decide (row_status r = st) then 1 else 0.
Proof.
  unfold count_status. rewrite filter_cons, filter_nil.
  now destruct (decide _).
Qed.

(** Pushing a row onto a well-counted result keeps it well counted; the
    [total_rows] entry [t] is only written after the loop. *)
Lemma push_result_of hs rs r t :
  push (with_summary (set_total_rows t) (result_of hs rs)) r
  = with_summary (set_total_rows t) (result_of hs (rs ++ [r])).
Proof.
  unfold push, result_of, with_summary, append_row, set_total_rows; simpl.
  f_equal. rewrite !count_status_app, !count_status_one.
  destruct r as [[] cs]; simpl; unfold incr_unchanged, incr_added,
    incr_deleted, incr_modified; simpl; f_equal; lia.
Qed.

Lemma fold_push hs rs0 rs t :
  fold_left push rs (with_summary (set_total_rows t) (result_of hs rs0))
  = with_summary (set_total_rows t) (result_of hs (rs0 ++ rs)).
Proof.
  revert rs0. induction rs as [|r rs IH]; intros rs0; simpl.
  - now rewrite app_nil_r.
  - rewrite push_result_of, IH, <- app_assoc. reflexivity.
Qed.

Lemma fold_key_step index1 index2 n cs keys res :
  fold_left (key_step index1 index2 n cs) keys res
  = fold_left push (omap (key_row index1 index2 n cs) keys) res.
Proof.
  revert res. induction keys as [|key keys IH]; intros res; simpl; [reflexivity|].
  rewrite key_step_push, IH.
  now destruct (key_row index1 index2 n cs key).
Qed.

Lemma fold_position_step df1 df2 n cs l res :
  fold_left (position_step df1 df2 n cs) l res
  = fold_left push (map (position_row df1 df2 n cs) l) res.
Proof.
  revert res. induction l as [|i l IH]; intros res; simpl; [reflexivity|].
  now rewrite position_step_push, IH.
Qed.

Lemma initial_result hs :
  {| headers := hs; rows := []; summary := empty_summary |}
  = with_summary (set_total_rows 0) (result_of hs []).
Proof. reflexivity. Qed.

Lemma set_total_rows_length hs rs t :
  with_summary (set_total_rows (length rs))
    (with_summary (set_total_rows t) (result_of hs rs))
  = result_of hs rs.
Proof. reflexivity. Qed.

Lemma compare_by_key_eq df1 df2 k n cs hs :
  compare_by_key df1 df2 k n cs
    {| headers := hs; rows := []; summary := empty_summary |}
  = result_of hs (key_rows df1 df2 k n cs).
Proof.
  unfold compare_by_key, key_rows.
  rewrite initial_result, fold_key_step, fold_push. reflexivity.
Qed.

Lemma length_position_rows df1 df2 n cs :
  length (position_rows df1 df2 n cs)
  = max (length (data df1)) (length (data df2)).
Proof. unfold position_rows. now rewrite length_map, length_seq. Qed.

Lemma compare_by_position_eq df1 df2 n cs hs :
  compare_by_position df1 df2 n cs
    {| headers := hs; rows := []; summary := empty_summary |}
  = result_of hs (position_rows df1 df2 n cs).
Proof.
  pose proof (length_position_rows df1 df2 n cs) as E.
  unfold compare_by_position.
  rewrite initial_result, fold_position_step, fold_push; simpl app.
  change (map _ (seq 0 _)) with (position_rows df1 df2 n cs).
  rewrite <- E. reflexivity.
Qed.

(** The whole of [compare_dataframes] in one equation. *)
Lemma compare_dataframes_eq df1 df2 key_column cs :
  compare_dataframes df1 df2 key_column cs
  = result_of (merged_headers_of df1 df2) (diff_rows df1 df2 key_column cs).
Proof.
  unfold compare_dataframes, diff_rows, key_matching, merged_headers_of, max_cols_of.
  destruct key_column as [k|]; [|apply compare_by_position_eq].
  destruct (_ && _)%Z; [apply compare_by_key_eq | apply compare_by_position_eq].
Qed.

Lemma rows_compare_dataframes df1 df2 key_column cs :
  rows (compare_dataframes df1 df2 key_column cs)
  = diff_rows df1 df2 key_column cs.
Proof. now rewrite compare_dataframes_eq. Qed.

Lemma key_matching_valid k n :
  (0 <= k < Z.of_nat n)%Z -> key_matching (Some k) n = Some k.
Proof.
  intros [H0 H1]. unfold key_matching.
  apply Z.leb_le in H0. apply Z.ltb_lt in H1. now rewrite H0, H1.
Qed.

Lemma diff_rows_key df1 df2 k cs :
  (0 <= k < Z.of_nat (max_cols_of df1 df2))%Z ->
  diff_rows df1 df2 (Some k) cs
  = key_rows df1 df2 k (max_cols_of df1 df2) cs.
Proof. intros H. unfold diff_rows. now rewrite key_matching_valid. Qed.

(** An index outside [0, max_cols) selects positional matching. *)
Lemma out_of_range_is_positional df1 df2 k cs :
  ((k < 0)%Z \/ (Z.of_nat (max_cols_of df1 df2) <= k)%Z) ->
  compare_dataframes df1 df2 (Some k) cs = compare_dataframes df1 df2 None cs.
Proof.
  intros H. rewrite !compare_dataframes_eq. f_equal. unfold diff_rows, key_matching.
  destruct (Z.leb_spec 0 k), (Z.ltb_spec k (Z.of_nat (max_cols_of df1 df2)));
    simpl; try reflexivity. lia.
Qed.

(** ** Facts on rows and counters *)

Lemma compare_values_refl v cs : compare_values v v cs = true.
Proof. unfold compare_values. destruct cs; apply String.eqb_refl. Qed.

Lemma compare_values_sym v1 v2 cs :
  compare_values v1 v2 cs = compare_values v2 v1 cs.
Proof. unfold compare_values. destruct cs; apply String.eqb_sym. Qed.

Lemma compare_values_true a b cs :
  compare_values a b cs = true ->
  if cs then a = b else Py.lower a = Py.lower b.
Proof. unfold compare_values. destruct cs; apply String.eqb_eq. Qed.

Lemma count_status_total rs :
  count_status Added rs + count_status Deleted rs
  + count_status Modified rs + count_status Same rs = length rs.
Proof.
  unfold count_status. induction rs as [|r rs IH]; [reflexivity|].
  rewrite !filter_cons. destruct r as [[] ?]; simpl in *; lia.
Qed.

Lemma count_status_none st rs :
  Forall (fun r => row_status r <> st) rs -> count_status st rs = 0.
Proof.
  unfold count_status. induction 1 as [|r rs Hr _ IH]; [reflexivity|].
  rewrite filter_cons. now rewrite decide_False.
Qed.

Lemma count_status_all st rs :
  Forall (fun r => row_status r = st) rs -> count_status st rs = length rs.
Proof.
  unfold count_status. induction 1 as [|r rs Hr _ IH]; [reflexivity|].
  rewrite filter_cons, decide_True by assumption. simpl. now rewrite IH.
Qed.

Lemma length_get_row_values df i n : length (get_row_values df i n) = n.
Proof.
  unfold get_row_values. destruct (_ <=? _).
  - apply repeat_length.
  - now rewrite length_map, length_seq.
Qed.

Lemma row_key_nth row k :
  (0 <= k)%Z -> row_key row k = nth (Z.to_nat k) row "".
Proof.
  intros Hk. unfold row_key. destruct (Z.ltb_spec k (Z.of_nat (length row)));
    [reflexivity|].
  symmetry. apply nth_overflow. lia.
Qed.

Lemma lookup_map_seq {A} (f : nat -> A) n j x :
  map f (seq 0 n) !! j = Some x -> j < n /\ x = f j.
Proof.
  intros H. assert (Hj : j < n).
  { apply lookup_lt_Some in H. now rewrite length_map, length_seq in H. }
  split; [assumption|].
  rewrite <- (nth_lookup_Some _ _ x _ H).
  rewrite (nth_indep _ x (f 0)) by now rewrite length_map, length_seq.
  rewrite map_nth, seq_nth by assumption. reflexivity.
Qed.

Lemma lookup_map_seq_lt {A} (f : nat -> A) n j :
  j < n -> map f (seq 0 n) !! j = Some (f j).
Proof.
  intros Hj. destruct (map f (seq 0 n) !! j) as [x|] eqn:E.
  - apply lookup_map_seq in E as [_ ->]. reflexivity.
  - apply lookup_ge_None in E. rewrite length_map, length_seq in E. lia.
Qed.

Lemma Forall2_map_same {A B C} (R : B -> C -> Prop) (f : A -> B) (g : A -> C) l :
  Forall (fun a => R (f a) (g a)) l -> Forall2 R (map f l) (map g l).
Proof. induction 1; simpl; constructor; assumption. Qed.

Lemma Forall2_omap_same {A B C} (R : B -> C -> Prop)
    (f : A -> option B) (g : A -> option C) l :
  Forall (fun a => option_Forall2 R (f a) (g a)) l ->
  Forall2 R (omap f l) (omap g l).
Proof.
  induction 1 as [|a l Ha _ IH]; simpl; [constructor|].
  destruct Ha; [constructor|]; assumption.
Qed.

Lemma length_omap_all {A B} (f : A -> option B) l :
  Forall (fun a => is_Some (f a)) l -> length (omap f l) = length l.
Proof.
  induction 1 as [|a l [b Hb] _ IH]; [reflexivity|].
  replace (omap f (a :: l)) with (b :: omap f l) by (simpl; now rewrite Hb).
  simpl. now rewrite IH.
Qed.

Lemma side_row_cells st row :
  Forall (fun c => status c = st /\ old_value c = None) (cells (side_row st row)).
Proof.
  unfold side_row; simpl. apply List.Forall_map, List.Forall_forall.
  now intros v _.
Qed.

Lemma existsb_differs_self row cs l :
  existsb (differs_at row row cs) l = false.
Proof.
  induction l as [|i l IH]; simpl; [reflexivity|].
  unfold differs_at at 1. now rewrite compare_values_refl.
Qed.

Lemma existsb_differs_sym row1 row2 cs l :
  existsb (differs_at row1 row2 cs) l = existsb (differs_at row2 row1 cs) l.
Proof.
  induction l as [|i l IH]; simpl; [reflexivity|].
  unfold differs_at at 1 3. now rewrite compare_values_sym, IH.
Qed.

Lemma compared_row_self row n cs :
  row_status (compared_row row row n cs) = Same
  /\ Forall (fun c => status c = Same /\ old_value c = None)
            (cells (compared_row row row n cs)).
Proof.
  unfold compared_row; simpl. rewrite existsb_differs_self. split; [reflexivity|].
  apply List.Forall_map, List.Forall_forall. intros i _.
  unfold cell_at, cell_of. now rewrite compare_values_refl.
Qed.

(** ** Where the rows of a diff come from *)

Lemma build_index_get_Some df k n key idx row :
  dict_get key (build_index df k n) = Some (idx, row) ->
  key <> "" /\ idx < length (data df)
  /\ key_value df k n idx = key /\ row = get_row_values df idx n.
Proof.
  rewrite build_index_get. destruct (decide (key = "")) as [|Hne]; [discriminate|].
  destruct (last _) as [i|] eqn:El; simpl; [|discriminate].
  intros [= <- <-]. apply last_Some_elem_of in El.
  apply list_elem_of_filter in El as [Hk Hi]. apply elem_of_seq in Hi.
  repeat split; [assumption | lia | assumption].
Qed.

Lemma elem_of_key_values df k n key :
  key ∈ key_values df k n
  <-> exists idx, idx < length (data df) /\ key_value df k n idx = key.
Proof.
  unfold key_values. rewrite list_elem_of_In, in_map_iff. split.
  - intros (idx & E & Hin). exists idx. apply in_seq in Hin. split; [lia|assumption].
  - intros (idx & Hlt & E). exists idx. split; [assumption|]. apply in_seq. lia.
Qed.

Lemma elem_of_build_index_keys df k n key :
  key ∈ dict_keys (build_index df k n)
  <-> key <> "" /\ key ∈ key_values df k n.
Proof.
  rewrite build_index_keys, elem_of_first_new. unfold non_empty_keys.
  rewrite list_elem_of_filter. set_solver.
Qed.

Lemma dict_get_build_index_elem df k n key v :
  dict_get key (build_index df k n) = Some v ->
  key <> "" /\ key ∈ key_values df k n.
Proof.
  intros H. apply elem_of_build_index_keys, dict_get_Some_keys. now exists v.
Qed.

(** Every key of the loop is in an index: no iteration is left without a
    row. *)
Lemma key_row_is_Some index1 index2 n cs key :
  key ∈ all_keys index1 index2 ->
  is_Some (key_row index1 index2 n cs key).
Proof.
  rewrite elem_of_all_keys, !dict_get_Some_keys. unfold key_row.
  destruct (dict_get key index1) as [[? ?]|], (dict_get key index2) as [[? ?]|];
    intros [[? ?]|[? ?]]; eauto; discriminate.
Qed.

Lemma length_key_rows df1 df2 k n cs :
  length (key_rows df1 df2 k n cs)
  = length (all_keys (build_index df1 k n) (build_index df2 k n)).
Proof.
  unfold key_rows. apply length_omap_all, Forall_forall.
  intros key Hkey. now apply key_row_is_Some.
Qed.

Lemma elem_of_key_rows df1 df2 k n cs key r :
  key ∈ all_keys (build_index df1 k n) (build_index df2 k n) ->
  key_row (build_index df1 k n) (build_index df2 k n) n cs key = Some r ->
  r ∈ key_rows df1 df2 k n cs.
Proof. intros Hin Hr. unfold key_rows. apply list_elem_of_omap. eauto. Qed.

Lemma key_row_origin df1 df2 k n cs key r :
  key_row (build_index df1 k n) (build_index df2 k n) n cs key = Some r ->
  row_origin df1 df2 n cs r.
Proof.
  unfold key_row.
  destruct (dict_get key (build_index df1 k n)) as [[i1 row1]|] eqn:E1,
           (dict_get key (build_index df2 k n)) as [[i2 row2]|] eqn:E2;
    intros [= <-];
    try (apply build_index_get_Some in E1 as (_ & H1 & _ & ->));
    try (apply build_index_get_Some in E2 as (_ & H2 & _ & ->));
    now constructor.
Qed.

Lemma position_row_origin df1 df2 n cs i :
  i < max (length (data df1)) (length (data df2)) ->
  row_origin df1 df2 n cs (position_row df1 df2 n cs i).
Proof.
  intros Hi. unfold position_row.
  destruct (Nat.ltb_spec i (length (data df1))); simpl.
  - destruct (Nat.ltb_spec i (length (data df2))); simpl.
    + now constructor.
    + now constructor.
  - constructor. lia.
Qed.

Lemma diff_rows_origin df1 df2 key_column cs :
  Forall (row_origin df1 df2 (max_cols_of df1 df2) cs)
         (diff_rows df1 df2 key_column cs).
Proof.
  unfold diff_rows. destruct (key_matching _ _) as [k|].
  - apply Forall_forall. intros r Hr. unfold key_rows in Hr.
    apply list_elem_of_omap in Hr as (key & _ & Hr).
    eapply key_row_origin; eassumption.
  - unfold position_rows. apply List.Forall_map, List.Forall_forall.
    intros i Hi. apply in_seq in Hi. apply position_row_origin. lia.
Qed.

(** A key value that only one table has yields a row of that side. *)
Lemma only_in_A df1 df2 k n cs ka :
  ka <> "" -> ka ∈ key_values df1 k n -> ka ∉ key_values df2 k n ->
  exists ia, ia < length (data df1) /\ key_value df1 k n ia = ka
             /\ side_row Deleted (get_row_values df1 ia n)
                ∈ key_rows df1 df2 k n cs.
Proof.
  intros Hne HA HB.
  assert (H1 : ka ∈ dict_keys (build_index df1 k n))
    by now apply elem_of_build_index_keys.
  assert (H2 : dict_get ka (build_index df2 k n) = None).
  { apply dict_get_None_keys. rewrite elem_of_build_index_keys. tauto. }
  pose proof H1 as G. apply dict_get_Some_keys in G as [[ia row] G].
  pose proof G as G'. apply build_index_get_Some in G' as (_ & Hia & Hka & ->).
  exists ia. repeat split; try assumption.
  apply (elem_of_key_rows _ _ _ _ _ ka).
  - apply elem_of_all_keys. now left.
  - unfold key_row. now rewrite G, H2.
Qed.

Lemma only_in_B df1 df2 k n cs kb :
  kb <> "" -> kb ∈ key_values df2 k n -> kb ∉ key_values df1 k n ->
  exists ib, ib < length (data df2) /\ key_value df2 k n ib = kb
             /\ side_row Added (get_row_values df2 ib n)
                ∈ key_rows df1 df2 k n cs.
Proof.
  intros Hne HB HA.
  assert (H2 : kb ∈ dict_keys (build_index df2 k n))
    by now apply elem_of_build_index_keys.
  assert (H1 : dict_get kb (build_index df1 k n) = None).
  { apply dict_get_None_keys. rewrite elem_of_build_index_keys. tauto. }
  pose proof H2 as G. apply dict_get_Some_keys in G as [[ib row] G].
  pose proof G as G'. apply build_index_get_Some in G' as (_ & Hib & Hkb & ->).
  exists ib. repeat split; try assumption.
  apply (elem_of_key_rows _ _ _ _ _ kb).
  - apply elem_of_all_keys. now right.
  - unfold key_row. now rewrite G, H1.
Qed.

(** A row that pairs the two sides pairs rows with one and the same key
    value: its cell at the key column is a same cell holding that key. *)
Lemma paired_rows_share_key df1 df2 k n cs :
  (0 <= k < Z.of_nat n)%Z ->
  Forall (fun r =>
            row_status r = Same \/ row_status r = Modified ->
            exists c, cells r !! Z.to_nat k = Some c
                      /\ status c = Same
                      /\ value c ∈ key_values df1 k n
                      /\ value c ∈ key_values df2 k n)
         (key_rows df1 df2 k n cs).
Proof.
  intros Hk. apply Forall_forall. intros r Hr Hst. unfold key_rows in Hr.
  apply list_elem_of_omap in Hr as (key & _ & Hr). unfold key_row in Hr.
  destruct (dict_get key (build_index df1 k n)) as [[i1 row1]|] eqn:E1,
           (dict_get key (build_index df2 k n)) as [[i2 row2]|] eqn:E2;
    try discriminate; injection Hr as <-;
    try (destruct Hst as [Hst|Hst]; discriminate Hst).
  pose proof (dict_get_build_index_elem _ _ _ _ _ E1) as [_ HA].
  pose proof (dict_get_build_index_elem _ _ _ _ _ E2) as [_ HB].
  apply build_index_get_Some in E1 as (_ & _ & K1 & ->).
  apply build_index_get_Some in E2 as (_ & _ & K2 & ->).
  unfold key_value in K1, K2. rewrite row_key_nth in K1, K2 by lia.
  exists (cell_at (get_row_values df1 i1 n) (get_row_values df2 i2 n) cs
                  (Z.to_nat k)).
  split; [unfold compared_row; simpl; apply lookup_map_seq_lt; lia|].
  unfold cell_at, cell_of. rewrite K1, K2, compare_values_refl. simpl.
  now repeat split.
Qed.

Lemma empty_not_in_spec_key_order keysA keysB :
  "" ∉ spec_key_order keysA keysB.
Proof.
  unfold spec_key_order, non_empty_keys.
  rewrite elem_of_app, !elem_of_first_new, !list_elem_of_filter. tauto.
Qed.

(** ** Swapping the two inputs *)

Lemma mirrored_cell_of v1 v2 cs :
  mirrored_cell cs (cell_of v1 v2 cs) (cell_of v2 v1 cs).
Proof.
  unfold mirrored_cell, cell_of. rewrite (compare_values_sym v2 v1).
  destruct (compare_values v1 v2 cs) eqn:E; simpl; [|now repeat split].
  repeat split. apply compare_values_true in E.
  destruct cs; congruence.
Qed.

Lemma mirrored_compared_row row1 row2 n cs :
  mirrored_row cs (compared_row row1 row2 n cs) (compared_row row2 row1 n cs).
Proof.
  unfold mirrored_row, compared_row; simpl. split.
  - rewrite (existsb_differs_sym row2 row1). now destruct (existsb _ _).
  - apply Forall2_map_same, List.Forall_forall. intros i _.
    apply mirrored_cell_of.
Qed.

Lemma mirrored_side_row row cs :
  mirrored_row cs (side_row Added row) (side_row Deleted row)
  /\ mirrored_row cs (side_row Deleted row) (side_row Added row).
Proof.
  unfold mirrored_row, side_row; simpl.
  split; (split; [reflexivity|]); apply Forall2_map_same, List.Forall_forall;
    intros v _; unfold mirrored_cell; simpl; now repeat split.
Qed.

Lemma same_compared_row row1 row2 n :
  row_status (compared_row row1 row2 n true) = Same ->
  compared_row row2 row1 n true = compared_row row1 row2 n true.
Proof.
  unfold compared_row; simpl. intros Hst.
  rewrite (existsb_differs_sym row2 row1).
  destruct (existsb _ _) eqn:E; [discriminate|]. f_equal.
  apply map_ext_in. intros i Hi.
  assert (D : differs_at row1 row2 true i = false).
  { destruct (differs_at row1 row2 true i) eqn:D; [|reflexivity].
    rewrite <- E. symmetry. apply existsb_exists. eauto. }
  unfold differs_at in D. apply negb_false_iff in D.
  unfold cell_at, cell_of. rewrite (compare_values_sym _ _ true), D.
  apply compare_values_true in D. now rewrite D.
Qed.

Lemma swap_compared_row row1 row2 n cs :
  mirrored_row cs (compared_row row1 row2 n cs) (compared_row row2 row1 n cs)
  /\ same_row_kept cs (compared_row row1 row2 n cs) (compared_row row2 row1 n cs).
Proof.
  split; [apply mirrored_compared_row|].
  unfold same_row_kept. destruct cs; [apply same_compared_row | exact I].
Qed.

Lemma swap_side_row row cs :
  (mirrored_row cs (side_row Added row) (side_row Deleted row)
   /\ same_row_kept cs (side_row Added row) (side_row Deleted row))
  /\ (mirrored_row cs (side_row Deleted row) (side_row Added row)
      /\ same_row_kept cs (side_row Deleted row) (side_row Added row)).
Proof.
  destruct (mirrored_side_row row cs) as [H1 H2].
  split; (split; [assumption|]); unfold same_row_kept;
    destruct cs; try exact I; simpl; intros [=].
Qed.

Lemma max_cols_of_comm df1 df2 : max_cols_of df2 df1 = max_cols_of df1 df2.
Proof. unfold max_cols_of. apply Nat.max_comm. Qed.

Lemma swap_position_row df1 df2 n cs i :
  i < max (length (data df1)) (length (data df2)) ->
  mirrored_row cs (position_row df1 df2 n cs i) (position_row df2 df1 n cs i)
  /\ same_row_kept cs (position_row df1 df2 n cs i)
                      (position_row df2 df1 n cs i).
Proof.
  intros Hi. unfold position_row.
  destruct (Nat.ltb_spec i (length (data df1))),
           (Nat.ltb_spec i (length (data df2))); simpl.
  - apply swap_compared_row.
  - apply swap_side_row.
  - apply swap_side_row.
  - lia.
Qed.

Lemma swap_key_row index1 index2 n cs key :
  option_Forall2 (fun r r' => mirrored_row cs r r' /\ same_row_kept cs r r')
    (key_row index1 index2 n cs key) (key_row index2 index1 n cs key).
Proof.
  unfold key_row.
  destruct (dict_get key index1) as [[i1 row1]|],
           (dict_get key index2) as [[i2 row2]|]; constructor.
  - apply swap_compared_row.
  - apply swap_side_row.
  - apply swap_side_row.
Qed.

(** ** Headers and the key-column specification *)

Lemma nth_lookup_string (l : list string) i :
  nth i l "" = match l !! i with Some s => s | None => "" end.
Proof.
  revert i. induction l as [|x l IH]; intros [|i]; simpl; auto.
Qed.

Lemma merge_headers_entry headers1 headers2 i :
  (let h1 := nth i headers1 "" in
   let h2 := nth i headers2 "" in
   if Py.truthy h2 then h2 else h1)
  = spec_merged_entry headers1 headers2 i.
Proof.
  unfold spec_merged_entry. simpl. rewrite !nth_lookup_string.
  destruct (headers2 !! i) as [h2|], (headers1 !! i) as [h1|]; simpl.
  - destruct (Py.truthy h2) eqn:E.
    + apply truthy_spec in E. now rewrite decide_True.
    + apply not_true_iff_false in E. rewrite truthy_spec in E.
      rewrite decide_False by assumption. destruct (decide (h1 <> "")) as [|N];
        [reflexivity|]. now destruct (decide (h1 = "")).
  - destruct (Py.truthy h2) eqn:E.
    + apply truthy_spec in E. now rewrite decide_True.
    + apply not_true_iff_false in E. rewrite truthy_spec in E.
      now rewrite decide_False.
  - destruct (decide (h1 <> "")) as [|N]; [reflexivity|].
    now destruct (decide (h1 = "")).
  - reflexivity.
Qed.

(** A specification that is neither all digits nor one letter is dropped. *)
Lemma unparseable_is_none spec :
  Py.isdigit (Py.upper (Py.strip spec)) = false ->
  (length (Py.upper (Py.strip spec)) =? 1)
    && Py.isalpha (Py.upper (Py.strip spec)) = false ->
  parse_key_column (Some spec) = Ok None.
Proof.
  intros H1 H2. unfold parse_key_column. rewrite H1, H2.
  now destruct (Py.truthy spec).
Qed.

(** ** The scenarios of the specification *)

Example scenario_key_rows :
  map row_status (rows (compare_dataframes tableA tableB (Some 0%Z) true))
  = [Same; Deleted; Added].
Proof. reflexivity. Qed.

Example scenario_key_summary :
  summary (compare_dataframes tableA tableB (Some 0%Z) true)
  = {| total_rows := 3; added := 1; deleted := 1; modified := 0; unchanged := 1 |}.
Proof. reflexivity. Qed.

Example scenario_positional_rows :
  rows (compare_dataframes tableA tableB None true)
  = [ {| row_status := Same;
         cells := [ {| value := "1"; old_value := None; status := Same |};
                    {| value := "Alice"; old_value := None; status := Same |} ] |};
      {| row_status := Modified;
         cells := [ {| value := "3"; old_value := Some "2"; status := Modified |};
                    {| value := "Carol"; old_value := Some "Bob";
                       status := Modified |} ] |} ].
Proof. reflexivity. Qed.

Example scenario_positional_summary :
  summary (compare_dataframes tableA tableB None true)
  = {| total_rows := 2; added := 0; deleted := 0; modified := 1; unchanged := 1 |}.
Proof. reflexivity. Qed.

Example key_order_D_E :
  all_keys (build_index tableD 0 2) (build_index tableE 0 2) = ["1"; "2"; "9"]
  /\ dict_get "1" (build_index tableD 0 2) = Some (3, ["1"; "Zed"])
  /\ map row_status (rows (compare_dataframes tableD tableE (Some 0%Z) true))
     = [Same; Same; Added].
Proof. repeat split. Qed.

Example parse_letter : parse_key_column (Some " b ") = Ok (Some 1%Z).
Proof. reflexivity. Qed.

Example parse_number : parse_key_column (Some "12") = Ok (Some 11%Z).
Proof. reflexivity. Qed.

Example parse_zero : parse_key_column (Some "0") = Ok (Some (-1)%Z).
Proof. reflexivity. Qed.

Example parse_word : parse_key_column (Some "AB") = Ok None.
Proof. reflexivity. Qed.

Example parse_minus : parse_key_column (Some "-1") = Ok None.
Proof. reflexivity. Qed.

Example parse_blank : parse_key_column (Some "  ") = Ok None.
Proof. reflexivity. Qed.

(** U+00B5 is a letter whose upper case is U+039C: column 924 - 65. *)
Example parse_micro :
  parse_key_column (Some (String "181"%char "")) = Ok (Some 859%Z).
Proof. reflexivity. Qed.

(** A digit string longer than the limit of [int]. *)
Example parse_long_digits :
  parse_key_column (Some (string_of_list_ascii (repeat "1"%char 4301)))
  = Raise ValueError.
Proof. vm_compute. reflexivity. Qed.

(** ** Properties of the diff *)

(** C1, as stated, fails in two places.  Under key matching the rows of the
    swapped diff come in the key order of B, so a same row changes position;
    with [case_sensitive = false] a same cell shows the string of the
    compare side, so a same row changes its cell values. *)
Lemma C1_counterexample :
  (exists i r,
      rows (compare_dataframes ids12 ids21 (Some 0%Z) true) !! i = Some r
      /\ row_status r = Same
      /\ rows (compare_dataframes ids21 ids12 (Some 0%Z) true) !! i <> Some r)
  /\ (exists i r,
         rows (compare_dataframes (one_cell "Foo") (one_cell "foo") None false)
           !! i = Some r
         /\ row_status r = Same
         /\ rows (compare_dataframes (one_cell "foo") (one_cell "Foo") None false)
              !! i <> Some r).
Proof.
  split.
  - exists 0, {| row_status := Same;
                 cells := [ {| value := "1"; old_value := None;
                               status := Same |} ] |}.
    repeat split. vm_compute. discriminate.
  - exists 0, {| row_status := Same;
                 cells := [ {| value := "foo"; old_value := None;
                               status := Same |} ] |}.
    repeat split. vm_compute. discriminate.
Qed.

(** C1 (amended). Swapping the two inputs of the sheet diff mirrors its
    rows: row and cell statuses added and deleted are exchanged, the
    [old_value] and [value] of every modified cell are exchanged, and a same
    row is a same row.  Under positional matching the mirrored row is at the
    same position; under key matching the mirrored rows are those of the
    swapped diff in another order (each diff follows the key order of its
    own first input).  With [case_sensitive = true] a same row is the same
    record in both diffs; with [false] its cell values agree up to letter
    case. *)
Theorem C1_swap_symmetry df1 df2 key_column case_sensitive :
  let ab := rows (compare_dataframes df1 df2 key_column case_sensitive) in
  let ba := rows (compare_dataframes df2 df1 key_column case_sensitive) in
  exists l,
    match key_matching key_column (max_cols_of df1 df2) with
    | None => l = ba
    | Some _ => l ≡ₚ ba
    end
    /\ Forall2 (mirrored_row case_sensitive) ab l
    /\ Forall2 (same_row_kept case_sensitive) ab l.
Proof.
  simpl. rewrite !rows_compare_dataframes. unfold diff_rows.
  rewrite (max_cols_of_comm df1 df2).
  set (n := max_cols_of df1 df2).
  set (R := fun r r' => mirrored_row case_sensitive r r'
                        /\ same_row_kept case_sensitive r r').
  assert (Split : forall l1 l2, Forall2 R l1 l2 ->
            Forall2 (mirrored_row case_sensitive) l1 l2
            /\ Forall2 (same_row_kept case_sensitive) l1 l2).
  { intros l1 l2 H. split; (eapply Forall2_impl; [exact H|]); now intros r r' []. }
  destruct (key_matching key_column n) as [k|].
  - exists (omap (key_row (build_index df2 k n) (build_index df1 k n) n
                          case_sensitive)
                 (all_keys (build_index df1 k n) (build_index df2 k n))).
    split.
    + unfold key_rows. f_equiv. apply all_keys_swap.
    + apply Split. unfold key_rows. apply Forall2_omap_same, Forall_forall.
      intros key _. apply swap_key_row.
  - exists (position_rows df2 df1 n case_sensitive).
    split; [reflexivity|]. apply Split. unfold position_rows.
    rewrite (Nat.max_comm (length (data df2))).
    apply Forall2_map_same, List.Forall_forall. intros i Hi.
    apply in_seq in Hi. apply swap_position_row. lia.
Qed.

(** C2. Under key-column matching each table is indexed by the string at
    the key column of its padded rows; the empty string is never a key of
    the index and yields no diff row; of the rows of a table that share a
    key the last one is the one the index holds; the keys are iterated in
    order of first appearance in A's key sequence, then first new
    appearance in B's, and the diff has one row per key in that order. *)
Theorem C2_key_matching_steps df1 df2 k case_sensitive :
  let n := max_cols_of df1 df2 in
  (0 <= k < Z.of_nat n)%Z ->
  let index1 := build_index df1 k n in
  let index2 := build_index df2 k n in
  let order := spec_key_order (key_values df1 k n) (key_values df2 k n) in
  (forall df idx,
     key_value df k n idx = nth (Z.to_nat k) (get_row_values df idx n) "")
  /\ (forall key, dict_get key index1 = spec_index_lookup df1 k n key)
  /\ (forall key, dict_get key index2 = spec_index_lookup df2 k n key)
  /\ dict_get "" index1 = None
  /\ dict_get "" index2 = None
  /\ all_keys index1 index2 = order
  /\ ("" ∉ order)
  /\ rows (compare_dataframes df1 df2 (Some k) case_sensitive)
     = omap (key_row index1 index2 n case_sensitive) order
  /\ length (rows (compare_dataframes df1 df2 (Some k) case_sensitive))
     = length order.
Proof.
  intros n Hk index1 index2 order.
  assert (Ho : all_keys index1 index2 = order) by apply all_keys_build_index.
  repeat split.
  - intros df idx. apply row_key_nth. lia.
  - intros key. apply build_index_get.
  - intros key. apply build_index_get.
  - subst index1. now rewrite build_index_get.
  - subst index2. now rewrite build_index_get.
  - exact Ho.
  - apply empty_not_in_spec_key_order.
  - rewrite rows_compare_dataframes, diff_rows_key by assumption.
    unfold key_rows. fold n index1 index2. now rewrite Ho.
  - rewrite rows_compare_dataframes, diff_rows_key by assumption.
    fold n. rewrite length_key_rows. fold index1 index2. now rewrite Ho.
Qed.

Lemma C2_key_matching_steps_witness :
  let n := max_cols_of tableD tableE in
  let index1 := build_index tableD 0 n in
  let index2 := build_index tableE 0 n in
  let order := spec_key_order (key_values tableD 0 n) (key_values tableE 0 n) in
  (forall df idx,
     key_value df 0 n idx = nth (Z.to_nat 0) (get_row_values df idx n) "")
  /\ (forall key, dict_get key index1 = spec_index_lookup tableD 0 n key)
  /\ (forall key, dict_get key index2 = spec_index_lookup tableE 0 n key)
  /\ dict_get "" index1 = None
  /\ dict_get "" index2 = None
  /\ all_keys index1 index2 = order
  /\ ("" ∉ order)
  /\ rows (compare_dataframes tableD tableE (Some 0%Z) true)
     = omap (key_row index1 index2 n true) order
  /\ length (rows (compare_dataframes tableD tableE (Some 0%Z) true))
     = length order.
Proof.
  apply (C2_key_matching_steps tableD tableE 0%Z true).
  vm_compute. split; [discriminate | reflexivity].
Defined.

(** C3. The key-column specification "²" (U+00B2) is not a decimal digit
    string and not a letter, yet [compare_excel_files] does not fall back to
    positional matching on it: [isdigit()] accepts the superscript digit,
    [int()] rejects it, and the [ValueError] leaves the function, whatever
    the workbooks are. *)
Theorem C3_superscript_digit_raises sheets1 sheets2 file1_name file2_name
    sheet_name case_sensitive :
  Py.isdigit (Py.upper (Py.strip superscript_two)) = true
  /\ forallb Py.isdecimal_cp (Py.upper (Py.strip superscript_two)) = false
  /\ parse_key_column (Some superscript_two) = Raise ValueError
  /\ compare_excel_files sheets1 sheets2 file1_name file2_name sheet_name
       (Some superscript_two) case_sensitive
     = Raise ValueError.
Proof. repeat split. Qed.

(** C4. [compare_values] is string equality when [case_sensitive] is true
    and equality of the lower-cased copies when it is false; the cell that
    the cell loop emits carries the strings as given, never the lower-cased
    copies; "Foo" against "foo" is a Modified cell under
    [case_sensitive = true] and a Same cell under [false]; two empty
    strings compare equal under both. *)
Theorem C4_cell_comparator :
  (forall a b, compare_values a b true = true <-> a = b)
  /\ (forall a b, compare_values a b false = true <-> Py.lower a = Py.lower b)
  /\ (forall row1 row2 n cs,
        fst (compare_cells row1 row2 n cs)
        = map (fun i =>
                 let v1 := nth i row1 "" in
                 let v2 := nth i row2 "" in
                 if compare_values v1 v2 cs
                 then {| value := v2; old_value := None; status := Same |}
                 else {| value := v2; old_value := Some v1;
                         status := Modified |})
              (seq 0 n))
  /\ rows (compare_dataframes (one_cell "Foo") (one_cell "foo") None true)
     = [ {| row_status := Modified;
            cells := [ {| value := "foo"; old_value := Some "Foo";
                          status := Modified |} ] |} ]
  /\ rows (compare_dataframes (one_cell "Foo") (one_cell "foo") None false)
     = [ {| row_status := Same;
            cells := [ {| value := "foo"; old_value := None;
                          status := Same |} ] |} ]
  /\ (forall cs, compare_values "" "" cs = true).
Proof.
  repeat split; try (intros; subst; apply compare_values_refl).
  - apply String.eqb_eq.
  - apply String.eqb_eq.
  - intros E. unfold compare_values. now apply String.eqb_eq.
  - intros row1 row2 n cs. now rewrite compare_cells_eq.
Qed.

(** C5. For all frames, both strategies and every configuration, the
    summary of the sheet diff satisfies
    [added + deleted + modified + unchanged = total_rows = len(rows)], and
    each counter is the number of rows with the corresponding status. *)
Theorem C5_summary_partition df1 df2 key_column case_sensitive :
  let d := compare_dataframes df1 df2 key_column case_sensitive in
  let s := summary d in
  added s + deleted s + modified s + unchanged s = total_rows s
  /\ total_rows s = length (rows d)
  /\ added s = count_status Added (rows d)
  /\ deleted s = count_status Deleted (rows d)
  /\ modified s = count_status Modified (rows d)
  /\ unchanged s = count_status Same (rows d).
Proof.
  simpl. rewrite compare_dataframes_eq. simpl.
  repeat split. apply count_status_total.
Qed.

(** C6. Diffing a frame against itself, by position or by any key column,
    emits only rows of status same (all their cells same); the summary has
    [added = deleted = modified = 0] and [unchanged = total_rows]. *)
Theorem C6_self_diff df key_column case_sensitive :
  let d := compare_dataframes df df key_column case_sensitive in
  Forall (fun r => row_status r = Same
                   /\ Forall (fun c => status c = Same /\ old_value c = None)
                             (cells r))
         (rows d)
  /\ added (summary d) = 0
  /\ deleted (summary d) = 0
  /\ modified (summary d) = 0
  /\ unchanged (summary d) = total_rows (summary d).
Proof.
  simpl. rewrite compare_dataframes_eq; simpl.
  assert (G : Forall (fun r => row_status r = Same
                       /\ Forall (fun c => status c = Same /\ old_value c = None)
                                 (cells r))
                     (diff_rows df df key_column case_sensitive)).
  { unfold diff_rows. destruct (key_matching _ _) as [k|].
    - apply Forall_forall. intros r Hr. unfold key_rows in Hr.
      apply list_elem_of_omap in Hr as (key & _ & Hr). unfold key_row in Hr.
      destruct (dict_get key _) as [[i row]|]; [|discriminate].
      injection Hr as <-. apply compared_row_self.
    - unfold position_rows. apply List.Forall_map, List.Forall_forall.
      intros i Hi. apply in_seq in Hi. unfold position_row.
      destruct (Nat.ltb_spec i (length (data df))); simpl; [|lia].
      apply compared_row_self. }
  assert (S : Forall (fun r => row_status r = Same)
                     (diff_rows df df key_column case_sensitive)).
  { eapply Forall_impl; [exact G|]. now intros r [? _]. }
  split; [exact G|].
  repeat split.
  - apply count_status_none. eapply Forall_impl; [exact S|].
    simpl; intros r ->; discriminate.
  - apply count_status_none. eapply Forall_impl; [exact S|].
    simpl; intros r ->; discriminate.
  - apply count_status_none. eapply Forall_impl; [exact S|].
    simpl; intros r ->; discriminate.
  - now apply count_status_all.
Qed.

(** C7. Under key matching with a valid key column, when no non-empty key
    value of A is a key value of B, every row of the diff is added with all
    cells added or deleted with all cells deleted, and the summary has
    [modified = unchanged = 0]. *)
Theorem C7_disjoint_keys df1 df2 k case_sensitive :
  let n := max_cols_of df1 df2 in
  (0 <= k < Z.of_nat n)%Z ->
  (forall key, key <> "" -> key ∈ key_values df1 k n ->
               key ∈ key_values df2 k n -> False) ->
  let d := compare_dataframes df1 df2 (Some k) case_sensitive in
  Forall (fun r =>
            (row_status r = Added
             /\ Forall (fun c => status c = Added) (cells r))
            \/ (row_status r = Deleted
                /\ Forall (fun c => status c = Deleted) (cells r)))
         (rows d)
  /\ modified (summary d) = 0
  /\ unchanged (summary d) = 0.
Proof.
  intros n Hk Hdisj d. subst d. rewrite compare_dataframes_eq; simpl.
  rewrite diff_rows_key by assumption. fold n.
  assert (G : Forall (fun r =>
            (row_status r = Added
             /\ Forall (fun c => status c = Added) (cells r))
            \/ (row_status r = Deleted
                /\ Forall (fun c => status c = Deleted) (cells r)))
            (key_rows df1 df2 k n case_sensitive)).
  { apply Forall_forall. intros r Hr. unfold key_rows in Hr.
    apply list_elem_of_omap in Hr as (key & _ & Hr). unfold key_row in Hr.
    destruct (dict_get key (build_index df1 k n)) as [[i1 row1]|] eqn:E1,
             (dict_get key (build_index df2 k n)) as [[i2 row2]|] eqn:E2;
      try discriminate.
    - exfalso. apply dict_get_build_index_elem in E1 as [Hne H1].
      apply dict_get_build_index_elem in E2 as [_ H2]. eauto.
    - injection Hr as <-. right. split; [reflexivity|].
      eapply Forall_impl; [apply side_row_cells|]. now intros c [? _].
    - injection Hr as <-. left. split; [reflexivity|].
      eapply Forall_impl; [apply side_row_cells|]. now intros c [? _]. }
  split; [exact G|].
  split; apply count_status_none; (eapply Forall_impl; [exact G|]);
    simpl; intros r [[-> _]|[-> _]]; discriminate.
Qed.

Lemma C7_disjoint_keys_witness :
  let d := compare_dataframes tableA tableC (Some 0%Z) false in
  Forall (fun r =>
            (row_status r = Added
             /\ Forall (fun c => status c = Added) (cells r))
            \/ (row_status r = Deleted
                /\ Forall (fun c => status c = Deleted) (cells r)))
         (rows d)
  /\ modified (summary d) = 0
  /\ unchanged (summary d) = 0.
Proof.
  apply (C7_disjoint_keys tableA tableC 0%Z false).
  - vm_compute. split; [discriminate | reflexivity].
  - intros key Hne H1 H2. vm_compute in H1, H2.
    apply list_elem_of_In in H1, H2. simpl in H1, H2.
    destruct H2 as [<-|[<-|[]]]; [|congruence].
    destruct H1 as [|[|[]]]; discriminate.
Defined.

(** C8. In the primary header-merge mode the merged header of any two
    header sequences has [max(len(headers1), len(headers2))] entries, and
    entry [i] is [headers2[i]] when that exists and is non-empty, else
    [headers1[i]] when that exists and is non-empty, else the empty string;
    [compare_dataframes] returns this list for the headers of its frames. *)
Theorem C8_merged_headers :
  (forall headers1 headers2 : list string,
     let n := max (length headers1) (length headers2) in
     length (merge_headers headers1 headers2 n) = n
     /\ merge_headers headers1 headers2 n
        = map (spec_merged_entry headers1 headers2) (seq 0 n))
  /\ (forall df1 df2 key_column case_sensitive,
        let headers1 := map safe_str (columns df1) in
        let headers2 := map safe_str (columns df2) in
        headers (compare_dataframes df1 df2 key_column case_sensitive)
        = map (spec_merged_entry headers1 headers2)
              (seq 0 (max (length headers1) (length headers2)))).
Proof.
  assert (G : forall headers1 headers2 n,
             merge_headers headers1 headers2 n
             = map (spec_merged_entry headers1 headers2) (seq 0 n)).
  { intros h1 h2 n. unfold merge_headers. apply map_ext.
    intros i. apply merge_headers_entry. }
  split.
  - intros h1 h2 n. split; [|apply G].
    unfold merge_headers. now rewrite length_map, length_seq.
  - intros df1 df2 kc cs h1 h2. rewrite compare_dataframes_eq. simpl.
    unfold merged_headers_of, max_cols_of. apply G.
Qed.

(** C9, as stated, fails where the key of the B row is also the key of
    another A row: the A row "abc" and the B row "ABC" differ only in letter
    case, yet the diff has no added row. *)
Lemma C9_counterexample :
  key_values bothCases 0 1 = ["abc"; "ABC"]
  /\ key_values upperOnly 0 1 = ["ABC"]
  /\ Py.lower "abc" = Py.lower "ABC"
  /\ map row_status (rows (compare_dataframes bothCases upperOnly (Some 0%Z) false))
     = [Deleted; Same].
Proof. repeat split. Qed.

(** C9 (amended). Under key matching with a valid key column rows are
    matched by exact equality of their key values whatever [case_sensitive]
    is: a non-empty key value [ka] that A has and B lacks and a non-empty
    key value [kb] that B has and A lacks (such as two keys that differ only
    in letter case) are reported as a deleted row of A with key [ka] and an
    added row of B with key [kb]; and every same or modified row pairs rows
    of one and the same key value. *)
Theorem C9_exact_key_matching df1 df2 k case_sensitive ka kb :
  let n := max_cols_of df1 df2 in
  (0 <= k < Z.of_nat n)%Z ->
  ka <> "" -> kb <> "" ->
  ka ∈ key_values df1 k n -> kb ∈ key_values df2 k n ->
  ka ∉ key_values df2 k n -> kb ∉ key_values df1 k n ->
  let d := compare_dataframes df1 df2 (Some k) case_sensitive in
  (exists ia, ia < length (data df1) /\ key_value df1 k n ia = ka
              /\ side_row Deleted (get_row_values df1 ia n) ∈ rows d)
  /\ (exists ib, ib < length (data df2) /\ key_value df2 k n ib = kb
                 /\ side_row Added (get_row_values df2 ib n) ∈ rows d)
  /\ Forall (fun r =>
               row_status r = Same \/ row_status r = Modified ->
               exists c, cells r !! Z.to_nat k = Some c
                         /\ status c = Same
                         /\ value c <> ka /\ value c <> kb)
            (rows d).
Proof.
  intros n Hk Hka Hkb HA HB HnB HnA d. subst d.
  rewrite rows_compare_dataframes, diff_rows_key by assumption. fold n.
  split; [now apply only_in_A|]. split; [now apply only_in_B|].
  eapply Forall_impl; [apply paired_rows_share_key; assumption|]. simpl.
  intros r H Hst. destruct (H Hst) as (c & Hc & Hs & H1 & H2).
  exists c. repeat split; try assumption; congruence.
Qed.

Lemma C9_exact_key_matching_witness :
  let d := compare_dataframes lowerOnly upperOnly (Some 0%Z) false in
  (exists ia, ia < 1 /\ key_value lowerOnly 0 1 ia = "abc"
              /\ side_row Deleted (get_row_values lowerOnly ia 1) ∈ rows d)
  /\ (exists ib, ib < 1 /\ key_value upperOnly 0 1 ib = "ABC"
                 /\ side_row Added (get_row_values upperOnly ib 1) ∈ rows d)
  /\ Forall (fun r =>
               row_status r = Same \/ row_status r = Modified ->
               exists c, cells r !! Z.to_nat 0 = Some c
                         /\ status c = Same
                         /\ value c <> "abc" /\ value c <> "ABC")
            (rows d).
Proof.
  apply (C9_exact_key_matching lowerOnly upperOnly 0%Z false "abc" "ABC").
  - vm_compute. split; [discriminate | reflexivity].
  - discriminate.
  - discriminate.
  - vm_compute. left.
  - vm_compute. left.
  - vm_compute. intros H. apply list_elem_of_In in H. simpl in H.
    destruct H as [|[]]; discriminate.
  - vm_compute. intros H. apply list_elem_of_In in H. simpl in H.
    destruct H as [|[]]; discriminate.
Defined.

(** C10. In every cell record of a sheet diff, [old_value] is null exactly
    when the status of the cell is not modified; a modified cell sits in a
    row that compares a row [i1] of the original frame with a row [i2] of
    the compare frame, and carries the original string of its column as
    [old_value] and the compare string as [value]. *)
Theorem C10_old_value df1 df2 key_column case_sensitive :
  let n := max_cols_of df1 df2 in
  Forall
    (fun r =>
       Forall (fun c => old_value c = None <-> status c <> Modified) (cells r)
       /\ (Forall (fun c => status c <> Modified) (cells r)
           \/ exists i1 i2,
               i1 < length (data df1) /\ i2 < length (data df2)
               /\ forall j c,
                   cells r !! j = Some c -> status c = Modified ->
                   old_value c = Some (nth j (get_row_values df1 i1 n) "")
                   /\ value c = nth j (get_row_values df2 i2 n) ""))
    (rows (compare_dataframes df1 df2 key_column case_sensitive)).
Proof.
  simpl. rewrite rows_compare_dataframes.
  eapply Forall_impl; [apply diff_rows_origin|]. simpl.
  intros r [i2 H2|i1 H1|i1 i2 H1 H2].
  - split; [|left]; (eapply Forall_impl; [apply side_row_cells|]);
      simpl; intros c [Hs Ho]; rewrite ?Hs, ?Ho; [split|]; congruence.
  - split; [|left]; (eapply Forall_impl; [apply side_row_cells|]);
      simpl; intros c [Hs Ho]; rewrite ?Hs, ?Ho; [split|]; congruence.
  - split.
    + unfold compared_row; simpl. apply List.Forall_map, List.Forall_forall.
      intros j _. unfold cell_at, cell_of.
      destruct (compare_values _ _ _); simpl; split; congruence.
    + right. exists i1, i2. split; [assumption|]. split; [assumption|].
      intros j c Hc Hm. unfold compared_row in Hc; simpl in Hc.
      apply lookup_map_seq in Hc as [_ ->]. unfold cell_at, cell_of in *.
      destruct (compare_values _ _ _); simpl in *; [discriminate|].
      now split.
Qed.


(** ** Further properties of [compare_dataframes] *)

Lemma length_side_row_cells st row : length (cells (side_row st row)) = length row.
Proof. unfold side_row; simpl. apply length_map. Qed.

Lemma length_compared_row_cells row1 row2 n cs :
  length (cells (compared_row row1 row2 n cs)) = n.
Proof. unfold compared_row; simpl. now rewrite length_map, length_seq. Qed.

(** X1. Every row of a sheet diff has exactly as many cells as the merged
    header has entries: the larger of the two column counts. *)
Theorem X1_cells_width df1 df2 key_column case_sensitive :
  let d := compare_dataframes df1 df2 key_column case_sensitive in
  let n := max (length (columns df1)) (length (columns df2)) in
  length (headers d) = n
  /\ Forall (fun r => length (cells r) = n) (rows d).
Proof.
  simpl. rewrite compare_dataframes_eq; simpl.
  assert (E : max_cols_of df1 df2
              = max (length (columns df1)) (length (columns df2))).
  { unfold max_cols_of. now rewrite !length_map. }
  split.
  - unfold merged_headers_of, merge_headers.
    now rewrite length_map, length_seq.
  - eapply Forall_impl; [apply diff_rows_origin|]. simpl. rewrite <- E.
    intros r [i2 H2|i1 H1|i1 i2 H1 H2].
    + now rewrite length_side_row_cells, length_get_row_values.
    + now rewrite length_side_row_cells, length_get_row_values.
    + apply length_compared_row_cells.
Qed.

Lemma compared_row_status row1 row2 n cs :
  let r := compared_row row1 row2 n cs in
  (row_status r = Modified
   /\ Exists (fun c => status c = Modified) (cells r))
  \/ (row_status r = Same
      /\ Forall (fun c => status c = Same) (cells r)).
Proof.
  unfold compared_row; simpl.
  destruct (existsb _ _) eqn:E.
  - left. split; [reflexivity|].
    apply existsb_exists in E as (i & Hi & D).
    apply List.Exists_exists. exists (cell_at row1 row2 cs i).
    split; [now apply in_map|].
    unfold differs_at in D. apply negb_true_iff in D.
    unfold cell_at, cell_of. now rewrite D.
  - right. split; [reflexivity|].
    apply List.Forall_map, List.Forall_forall. intros i Hi.
    assert (D : differs_at row1 row2 cs i = false).
    { destruct (differs_at row1 row2 cs i) eqn:D; [|reflexivity].
      rewrite <- E. symmetry. apply existsb_exists. eauto. }
    unfold differs_at in D. apply negb_false_iff in D.
    unfold cell_at, cell_of. now rewrite D.
Qed.

Lemma compared_row_cells_kinds row1 row2 n cs :
  Forall (fun c => status c = Same \/ status c = Modified)
         (cells (compared_row row1 row2 n cs)).
Proof.
  unfold compared_row; simpl. apply List.Forall_map, List.Forall_forall.
  intros i _. unfold cell_at, cell_of.
  destruct (compare_values _ _ _); simpl; auto.
Qed.

(** X2. The status of a row agrees with the statuses of its cells: a
    modified row has a modified cell and only same or modified cells, a same
    row has only same cells, an added row only added cells and a deleted row
    only deleted cells. *)
Theorem X2_row_status_consistent df1 df2 key_column case_sensitive :
  Forall
    (fun r =>
       match row_status r with
       | Modified =>
           Exists (fun c => status c = Modified) (cells r)
           /\ Forall (fun c => status c = Same \/ status c = Modified) (cells r)
       | st => Forall (fun c => status c = st) (cells r)
       end)
    (rows (compare_dataframes df1 df2 key_column case_sensitive)).
Proof.
  rewrite rows_compare_dataframes.
  eapply Forall_impl; [apply diff_rows_origin|]. simpl.
  intros r [i2 H2|i1 H1|i1 i2 H1 H2].
  - simpl. eapply Forall_impl; [apply side_row_cells|]. now intros c [? _].
  - simpl. eapply Forall_impl; [apply side_row_cells|]. now intros c [? _].
  - destruct (compared_row_status (get_row_values df1 i1 (max_cols_of df1 df2))
                (get_row_values df2 i2 (max_cols_of df1 df2))
                (max_cols_of df1 df2) case_sensitive) as [[-> Hex]|[-> Hall]].
    + split; [exact Hex | apply compared_row_cells_kinds].
    + exact Hall.
Qed.

Lemma map_nth_seq_string (l : list string) n :
  length l = n -> map (fun j => nth j l "") (seq 0 n) = l.
Proof.
  intros <-. induction l as [|x l IH]; simpl; [reflexivity|].
  f_equal. rewrite <- seq_shift, map_map. exact IH.
Qed.



(** X4. A key column index that is negative or not below the merged
    column count gives exactly the result of positional matching. *)
Theorem X4_out_of_range_key_column df1 df2 k case_sensitive :
  (k < 0 \/ Z.of_nat (max (length (columns df1)) (length (columns df2))) <= k)%Z ->
  compare_dataframes df1 df2 (Some k) case_sensitive
  = compare_dataframes df1 df2 None case_sensitive.
Proof.
  intros H. apply out_of_range_is_positional.
  unfold max_cols_of. now rewrite !length_map.
Qed.

Lemma X4_out_of_range_key_column_witness :
  compare_dataframes tableA tableB (Some 2%Z) true
  = compare_dataframes tableA tableB None true.
Proof.
  apply (X4_out_of_range_key_column tableA tableB 2%Z true).
  right. vm_compute. discriminate.
Defined.

Lemma rows_against_empty df kc cs :
  Forall (fun r => row_status r = Deleted)
         (rows (compare_dataframes df empty_frame kc cs))
  /\ Forall (fun r => row_status r = Added)
            (rows (compare_dataframes empty_frame df kc cs)).
Proof.
  rewrite !rows_compare_dataframes. split;
    (eapply Forall_impl; [apply diff_rows_origin|]); simpl;
    intros r [i2 H2|i1 H1|i1 i2 H1 H2]; simpl in *; try lia; reflexivity.
Qed.

(** X5. A frame compared with the empty frame (the stand-in for a sheet
    that one workbook lacks) gives only deleted rows, and the empty frame
    compared with a frame only added rows; the other counters are zero, and
    under positional matching there is one row per row of the frame. *)
Theorem X5_against_empty_frame df key_column case_sensitive :
  let del := compare_dataframes df empty_frame key_column case_sensitive in
  let add := compare_dataframes empty_frame df key_column case_sensitive in
  (Forall (fun r => row_status r = Deleted) (rows del)
   /\ deleted (summary del) = total_rows (summary del)
   /\ added (summary del) = 0 /\ modified (summary del) = 0
   /\ unchanged (summary del) = 0)
  /\ (Forall (fun r => row_status r = Added) (rows add)
      /\ added (summary add) = total_rows (summary add)
      /\ deleted (summary add) = 0 /\ modified (summary add) = 0
      /\ unchanged (summary add) = 0)
  /\ deleted (summary (compare_dataframes df empty_frame None case_sensitive))
     = length (data df)
  /\ added (summary (compare_dataframes empty_frame df None case_sensitive))
     = length (data df).
Proof.
  cbv zeta.
  destruct (rows_against_empty df key_column case_sensitive) as [D A].
  destruct (rows_against_empty df None case_sensitive) as [D0 A0].
  rewrite !compare_dataframes_eq in *. simpl rows in *. simpl summary.
  cbn [deleted added modified unchanged total_rows].
  assert (N : forall st st' rs, st <> st' ->
            Forall (fun r => row_status r = st) rs -> count_status st' rs = 0).
  { intros st st' rs Hne H. apply count_status_none.
    eapply Forall_impl; [exact H|]. simpl. congruence. }
  repeat split; try assumption;
    try (now apply count_status_all);
    try (eapply N; [|eassumption]; discriminate).
  - rewrite (count_status_all _ _ D0).
    change (diff_rows df empty_frame None case_sensitive)
      with (position_rows df empty_frame (max_cols_of df empty_frame)
                          case_sensitive).
    rewrite length_position_rows. simpl. lia.
  - rewrite (count_status_all _ _ A0).
    change (diff_rows empty_frame df None case_sensitive)
      with (position_rows empty_frame df (max_cols_of empty_frame df)
                          case_sensitive).
    rewrite length_position_rows. simpl. lia.
Qed.

(** X6. [get_row_values] always returns [cols] strings: entry [j] is the
    [safe_str] text of the cell when the row and the column exist in the
    frame and the empty string otherwise, so a row index past the end gives
    a row of empty strings. *)
Theorem X6_get_row_values_padding df row_idx cols :
  length (get_row_values df row_idx cols) = cols
  /\ get_row_values df row_idx cols
     = map (fun j =>
              if (row_idx <? length (data df)) && (j <? length (columns df))
              then safe_str (iloc df row_idx j) else "")
           (seq 0 cols).
Proof.
  split; [apply length_get_row_values|].
  unfold get_row_values.
  destruct (Nat.leb_spec (length (data df)) row_idx) as [H|H].
  - apply Nat.ltb_ge in H. rewrite H. simpl.
    generalize 0. induction cols as [|c IH]; intros s; simpl; [reflexivity|].
    now rewrite <- IH.
  - apply Nat.ltb_lt in H. now rewrite H.
Qed.

(** X7. For either value of [case_sensitive], [compare_values] is an
    equivalence: reflexive, symmetric and transitive. *)
Theorem X7_compare_values_equivalence case_sensitive :
  (forall a, compare_values a a case_sensitive = true)
  /\ (forall a b, compare_values a b case_sensitive
                  = compare_values b a case_sensitive)
  /\ (forall a b c,
        compare_values a b case_sensitive = true ->
        compare_values b c case_sensitive = true ->
        compare_values a c case_sensitive = true).
Proof.
  split; [intros a; apply compare_values_refl|].
  split; [intros a b; apply compare_values_sym|].
  intros a b c. unfold compare_values.
  destruct case_sensitive; rewrite !String.eqb_eq; congruence.
Qed.

Lemma count_status_cons st r rs :
  count_status st (r :: rs)
  = (if decide (row_status r = st) then 1 else 0) + count_status st rs.
Proof.
  unfold count_status. rewrite filter_cons. now destruct (decide _).
Qed.

Lemma count_status_Forall2_eq st st' l1 l2 :
  Forall2 (fun r r' => row_status r = st <-> row_status r' = st') l1 l2 ->
  count_status st l1 = count_status st' l2.
Proof.
  induction 1 as [|r r' l1 l2 Hr _ IH]; [reflexivity|].
  rewrite !count_status_cons, IH.
  destruct (decide (row_status r = st)), (decide (row_status r' = st'));
    tauto.
Qed.

Lemma count_status_Forall2_le st l1 l2 :
  Forall2 (fun r r' => row_status r' = st -> row_status r = st) l1 l2 ->
  count_status st l2 <= count_status st l1.
Proof.
  induction 1 as [|r r' l1 l2 Hr _ IH]; [reflexivity|].
  rewrite !count_status_cons.
  destruct (decide (row_status r = st)), (decide (row_status r' = st));
    try tauto; lia.
Qed.

Lemma count_status_Forall2_ge st l1 l2 :
  Forall2 (fun r r' => row_status r = st -> row_status r' = st) l1 l2 ->
  count_status st l1 <= count_status st l2.
Proof.
  induction 1 as [|r r' l1 l2 Hr _ IH]; [reflexivity|].
  rewrite !count_status_cons.
  destruct (decide (row_status r = st)), (decide (row_status r' = st));
    try tauto; lia.
Qed.

Lemma count_status_Permutation st l1 l2 :
  l1 ≡ₚ l2 -> count_status st l1 = count_status st l2.
Proof. intros H. unfold count_status. now rewrite H. Qed.

Lemma coarser_refl r : coarser_row r r.
Proof. split; auto. Qed.

Lemma coarser_compared_row row1 row2 n :
  coarser_row (compared_row row1 row2 n true) (compared_row row1 row2 n false).
Proof.
  split.
  - unfold compared_row; simpl. rewrite !map_map. apply map_ext. intros j.
    unfold cell_at, cell_of. now destruct (compare_values _ _ true),
      (compare_values _ _ false).
  - destruct (compared_row_status row1 row2 n true) as [[Hm _]|[Hs Hall]].
    + right. split; [assumption|].
      destruct (compared_row_status row1 row2 n false) as [[-> _]|[-> _]]; auto.
    + left. unfold compared_row in *; simpl in *.
      destruct (existsb (differs_at row1 row2 true) (seq 0 n)) eqn:E;
        [discriminate|].
      assert (G : forall j, In j (seq 0 n) ->
                   nth j row1 "" = nth j row2 "").
      { intros j Hj.
        destruct (differs_at row1 row2 true j) eqn:D.
        - exfalso. apply not_true_iff_false in E. apply E.
          apply existsb_exists. eauto.
        - unfold differs_at in D. apply negb_false_iff in D.
          now apply (compare_values_true _ _ true). }
      assert (F : existsb (differs_at row1 row2 false) (seq 0 n) = false).
      { apply not_true_iff_false. intros F.
        apply existsb_exists in F as (j & Hj & D).
        unfold differs_at in D. rewrite (G j Hj), compare_values_refl in D.
        discriminate. }
      rewrite F. f_equal. apply map_ext_in. intros j Hj.
      unfold cell_at, cell_of. now rewrite (G j Hj), !compare_values_refl.
Qed.

Lemma coarser_diff_rows df1 df2 key_column :
  Forall2 coarser_row (diff_rows df1 df2 key_column true)
                      (diff_rows df1 df2 key_column false).
Proof.
  unfold diff_rows. destruct (key_matching _ _) as [k|].
  - unfold key_rows. apply Forall2_omap_same, Forall_forall. intros key _.
    unfold key_row.
    destruct (dict_get key _) as [[i1 row1]|], (dict_get key _) as [[i2 row2]|];
      constructor; auto using coarser_refl, coarser_compared_row.
  - unfold position_rows. apply Forall2_map_same, List.Forall_forall.
    intros i _. unfold position_row.
    destruct (negb _); [apply coarser_refl|].
    destruct (negb _); [apply coarser_refl|]. apply coarser_compared_row.
Qed.

(** X8. Switching [case_sensitive] off only turns modified rows into same
    rows: the two diffs have the same rows in the same order with the same
    cell values, a row that is not modified in the case-sensitive diff is
    the same record in the case-insensitive one, and so the added and
    deleted counts agree while the modified count can only drop. *)
Theorem X8_case_insensitive_coarser df1 df2 key_column :
  let ds := compare_dataframes df1 df2 key_column true in
  let di := compare_dataframes df1 df2 key_column false in
  Forall2 coarser_row (rows ds) (rows di)
  /\ total_rows (summary di) = total_rows (summary ds)
  /\ added (summary di) = added (summary ds)
  /\ deleted (summary di) = deleted (summary ds)
  /\ modified (summary di) <= modified (summary ds)
  /\ unchanged (summary ds) <= unchanged (summary di).
Proof.
  cbv zeta. rewrite !compare_dataframes_eq. simpl.
  pose proof (coarser_diff_rows df1 df2 key_column) as H.
  split; [exact H|].
  split; [symmetry; eapply Forall2_length; exact H|].
  split; [|split; [|split]].
  - symmetry. apply count_status_Forall2_eq.
    eapply Forall2_impl; [exact H|]. simpl.
    intros rs ri [_ [->|[Hm [Hs|Hs]]]]; [tauto|..]; rewrite Hm, Hs;
      split; discriminate.
  - symmetry. apply count_status_Forall2_eq.
    eapply Forall2_impl; [exact H|]. simpl.
    intros rs ri [_ [->|[Hm [Hs|Hs]]]]; [tauto|..]; rewrite Hm, Hs;
      split; discriminate.
  - apply count_status_Forall2_le.
    eapply Forall2_impl; [exact H|]. simpl.
    intros rs ri [_ [->|[Hm _]]]; tauto.
  - apply count_status_Forall2_ge.
    eapply Forall2_impl; [exact H|]. simpl.
    intros rs ri [_ [->|[Hm _]]]; [tauto|]. rewrite Hm. discriminate.
Qed.

(** The rows of the swapped diff, reordered to face those of the diff. *)
Lemma diff_rows_mirrored df1 df2 key_column cs :
  exists l,
    l ≡ₚ diff_rows df2 df1 key_column cs
    /\ Forall2 (mirrored_row cs) (diff_rows df1 df2 key_column cs) l.
Proof.
  unfold diff_rows. rewrite (max_cols_of_comm df1 df2).
  set (n := max_cols_of df1 df2).
  destruct (key_matching key_column n) as [k|].
  - exists (omap (key_row (build_index df2 k n) (build_index df1 k n) n cs)
                 (all_keys (build_index df1 k n) (build_index df2 k n))).
    split.
    + unfold key_rows. f_equiv. apply all_keys_swap.
    + unfold key_rows. apply Forall2_omap_same, Forall_forall.
      intros key _.
      destruct (swap_key_row (build_index df1 k n) (build_index df2 k n)
                             n cs key) as [r r' [H _]|]; now constructor.
  - exists (position_rows df2 df1 n cs). split; [reflexivity|].
    unfold position_rows. rewrite (Nat.max_comm (length (data df2))).
    apply Forall2_map_same, List.Forall_forall. intros i Hi.
    apply in_seq in Hi. apply swap_position_row. lia.
Qed.

Lemma summary_swap df1 df2 key_column case_sensitive :
  let ab := summary (compare_dataframes df1 df2 key_column case_sensitive) in
  let ba := summary (compare_dataframes df2 df1 key_column case_sensitive) in
  added ba = deleted ab
  /\ deleted ba = added ab
  /\ modified ba = modified ab
  /\ unchanged ba = unchanged ab
  /\ total_rows ba = total_rows ab.
Proof.
  cbv zeta. rewrite !compare_dataframes_eq. simpl.
  destruct (diff_rows_mirrored df1 df2 key_column case_sensitive)
    as (l & Hp & Hm).
  assert (C : forall st,
            count_status (mirror_status st) (diff_rows df2 df1 key_column case_sensitive)
            = count_status st (diff_rows df1 df2 key_column case_sensitive)).
  { intros st. rewrite <- (count_status_Permutation _ _ _ Hp). symmetry.
    apply count_status_Forall2_eq.
    eapply Forall2_impl; [exact Hm|]. simpl. intros r r' [-> _].
    destruct (row_status r), st; simpl; split; congruence. }
  repeat split.
  - apply (C Deleted).
  - apply (C Added).
  - apply (C Modified).
  - apply (C Same).
  - rewrite <- (Permutation_length Hp). symmetry.
    eapply Forall2_length; exact Hm.
Qed.

(** X9. Swapping the two inputs exchanges the added and deleted counts of
    the summary and keeps the modified, unchanged and total counts. *)
Theorem X9_summary_swap df1 df2 key_column case_sensitive :
  let ab := summary (compare_dataframes df1 df2 key_column case_sensitive) in
  let ba := summary (compare_dataframes df2 df1 key_column case_sensitive) in
  added ba = deleted ab
  /\ deleted ba = added ab
  /\ modified ba = modified ab
  /\ unchanged ba = unchanged ab
  /\ total_rows ba = total_rows ab.
Proof. apply summary_swap. Qed.

Lemma get_row_values_pad_row df i n :
  i < length (data df) ->
  get_row_values df i n = pad_row (length (columns df)) n (nth i (data df) []).
Proof.
  intros Hi. unfold get_row_values, pad_row, iloc.
  apply Nat.leb_gt in Hi. now rewrite Hi.
Qed.

Lemma map_nth_seq {A B} (f : A -> B) (l : list A) (d : A) :
  map (fun i => f (nth i l d)) (seq 0 (length l)) = map f l.
Proof.
  induction l as [|x l IH]; simpl; [reflexivity|].
  f_equal. rewrite <- seq_shift, map_map. exact IH.
Qed.

Lemma key_values_rows df k n :
  key_values df k n
  = map (fun row => row_key (pad_row (length (columns df)) n row) k) (data df).
Proof.
  unfold key_values.
  rewrite <- (map_nth_seq
                (fun row => row_key (pad_row (length (columns df)) n row) k)
                (data df) []).
  apply map_ext_in. intros i Hi. apply in_seq in Hi.
  unfold key_value. rewrite get_row_values_pad_row by lia. reflexivity.
Qed.

Lemma NoDup_filter_map_inj {A} (P : string -> Prop) `{!forall s, Decision (P s)}
    (f : A -> string) (l : list A) x y :
  NoDup (filter P (map f l)) ->
  In x l -> In y l -> f x = f y -> P (f x) -> x = y.
Proof.
  induction l as [|a l IH]; simpl; [tauto|].
  rewrite filter_cons. intros Hnd Hx Hy E Px.
  destruct (decide (P (f a))) as [Pa|Pa].
  - apply NoDup_cons in Hnd as [Ha Hnd].
    assert (G : forall z, In z l -> f z = f a -> False).
    { intros z Hz Ez. apply Ha. apply list_elem_of_filter. split; [assumption|].
      rewrite <- Ez. apply list_elem_of_In, in_map, Hz. }
    destruct Hx as [<-|Hx], Hy as [<-|Hy]; auto.
    + exfalso. apply (G y Hy). congruence.
    + exfalso. apply (G x Hx). congruence.
  - destruct Hx as [<-|Hx]; [contradiction|].
    destruct Hy as [<-|Hy]; [rewrite E in Px; contradiction|]. auto.
Qed.

Lemma first_new_all_seen s l : (forall x, x ∈ l -> x ∈ s) -> first_new s l = [].
Proof.
  induction l as [|k l IH]; intros H; simpl; [reflexivity|].
  rewrite decide_True by (apply H; left). apply IH.
  intros x Hx. apply H. now right.
Qed.

Lemma max_cols_of_with_data df rws :
  max_cols_of df (with_data df rws) = length (columns df).
Proof. unfold max_cols_of; simpl. rewrite length_map. apply Nat.max_id. Qed.

(** X10. Key matching does not depend on the order of the rows: a frame
    compared, on a valid key column, with a frame that has the same columns
    and the same rows in another order gives only same rows, one per
    non-empty key, when no two rows share a non-empty key value. *)
Theorem X10_key_matching_ignores_row_order df rws k case_sensitive :
  let n := length (columns df) in
  (0 <= k < Z.of_nat n)%Z ->
  data df ≡ₚ rws ->
  NoDup (non_empty_keys (key_values df k n)) ->
  let d := compare_dataframes df (with_data df rws) (Some k) case_sensitive in
  Forall (fun r => row_status r = Same) (rows d)
  /\ added (summary d) = 0
  /\ deleted (summary d) = 0
  /\ modified (summary d) = 0
  /\ unchanged (summary d) = length (non_empty_keys (key_values df k n)).
Proof.
  intros n Hk Hperm Hnd d. subst d.
  rewrite compare_dataframes_eq. simpl rows. simpl summary.
  cbn [added deleted modified unchanged].
  pose proof (max_cols_of_with_data df rws) as En. fold n in En.
  rewrite diff_rows_key by (rewrite En; exact Hk). rewrite En.
  set (df2 := with_data df rws).
  set (kr := fun row => row_key (pad_row n n row) k).
  assert (K1 : key_values df k n = map kr (data df)) by apply key_values_rows.
  assert (K2 : key_values df2 k n = map kr rws) by apply key_values_rows.
  assert (Kp : forall key, key ∈ key_values df2 k n <-> key ∈ key_values df k n).
  { intros key. rewrite K1, K2. now rewrite Hperm. }
  assert (S : Forall (fun r => row_status r = Same)
                     (key_rows df df2 k n case_sensitive)).
  { apply Forall_forall. intros r Hr. unfold key_rows in Hr.
    apply list_elem_of_omap in Hr as (key & _ & Hr). unfold key_row in Hr.
    destruct (dict_get key (build_index df k n)) as [[i1 row1]|] eqn:E1,
             (dict_get key (build_index df2 k n)) as [[i2 row2]|] eqn:E2;
      try discriminate.
    - injection Hr as <-.
      apply build_index_get_Some in E1 as (Hne & H1 & V1 & ->).
      apply build_index_get_Some in E2 as (_ & H2 & V2 & ->).
      unfold key_value in V1, V2.
      rewrite get_row_values_pad_row in V1 |- * by assumption.
      rewrite (get_row_values_pad_row df2) in V2 |- * by assumption.
      simpl columns in *. simpl data in *. fold n in V1, V2 |- *.
      replace (nth i2 rws []) with (nth i1 (data df) []);
        [apply compared_row_self|].
      apply (NoDup_filter_map_inj (fun s => s <> "") kr (data df)).
      + rewrite <- K1. exact Hnd.
      + now apply nth_In.
      + apply (Permutation_in _ (Permutation_sym Hperm)). now apply nth_In.
      + unfold kr. congruence.
      + unfold kr. congruence.
    - exfalso. apply dict_get_build_index_elem in E1 as [Hne H1].
      apply dict_get_None_keys in E2. apply E2.
      apply elem_of_build_index_keys. split; [assumption|]. now apply Kp.
    - exfalso. apply dict_get_build_index_elem in E2 as [Hne H2].
      apply dict_get_None_keys in E1. apply E1.
      apply elem_of_build_index_keys. split; [assumption|]. now apply Kp. }
  split; [exact S|].
  assert (N : forall st, st <> Same ->
            count_status st (key_rows df df2 k n case_sensitive) = 0).
  { intros st Hst. apply count_status_none.
    eapply Forall_impl; [exact S|]. simpl. congruence. }
  repeat split; try (apply N; discriminate).
  rewrite (count_status_all _ _ S), length_key_rows, all_keys_build_index.
  rewrite first_new_NoDup by assumption.
  rewrite first_new_all_seen, app_nil_r; [reflexivity|].
  intros x. unfold non_empty_keys. rewrite !list_elem_of_filter, Kp. tauto.
Qed.

Lemma X10_key_matching_ignores_row_order_witness :
  let d := compare_dataframes tableA
             (with_data tableA [[Text "2"; Text "Bob"]; [Text "1"; Text "Alice"]])
             (Some 0%Z) true in
  Forall (fun r => row_status r = Same) (rows d)
  /\ added (summary d) = 0
  /\ deleted (summary d) = 0
  /\ modified (summary d) = 0
  /\ unchanged (summary d) = length (non_empty_keys (key_values tableA 0 2)).
Proof.
  apply (X10_key_matching_ignores_row_order tableA
           [[Text "2"; Text "Bob"]; [Text "1"; Text "Alice"]] 0%Z true).
  - vm_compute. split; [discriminate | reflexivity].
  - simpl. apply perm_swap.
  - vm_compute. repeat constructor.
    + intros H. apply list_elem_of_In in H. simpl in H.
      destruct H as [|[]]; discriminate.
    + intros H. inversion H.
Defined.

(** ** [safe_str] and normalised frames *)

Lemma no_leading_space_lstrip l : no_leading_space (Py.lstrip l).
Proof.
  induction l as [|c l IH]; simpl; [exact I|].
  destruct (Py.isspace c) eqn:E; [exact IH | exact E].
Qed.

Lemma lstrip_fixed l : no_leading_space l -> Py.lstrip l = l.
Proof. destruct l as [|c l]; simpl; [reflexivity|]. now intros ->. Qed.

Lemma lstrip_suffix l : exists w, l = w ++ Py.lstrip l.
Proof.
  induction l as [|c l [w IH]]; simpl; [now exists []|].
  destruct (Py.isspace c).
  - exists (c :: w). simpl. now rewrite <- IH.
  - now exists [].
Qed.

(** Stripping the tail of a list that has no leading white space leaves a
    list with no white space at either end. *)
Lemma no_leading_space_rstrip m :
  no_leading_space m -> no_leading_space (rev (Py.lstrip (rev m))).
Proof.
  intros Hm. destruct (lstrip_suffix (rev m)) as [w Hw].
  apply (f_equal (@rev ascii)) in Hw. rewrite rev_involutive, rev_app_distr in Hw.
  destruct (rev (Py.lstrip (rev m))) as [|c p]; [exact I|].
  rewrite Hw in Hm. exact Hm.
Qed.

Lemma strip_normal_form s :
  let l := list_ascii_of_string (Py.strip s) in
  no_leading_space l /\ no_leading_space (rev l).
Proof.
  unfold Py.strip. rewrite list_ascii_of_string_of_list_ascii. split.
  - apply no_leading_space_rstrip, no_leading_space_lstrip.
  - rewrite rev_involutive. apply no_leading_space_lstrip.
Qed.

Lemma strip_idempotent s : Py.strip (Py.strip s) = Py.strip s.
Proof.
  destruct (strip_normal_form s) as [H1 H2]. simpl in H1, H2.
  unfold Py.strip at 1. rewrite (lstrip_fixed _ H1), (lstrip_fixed _ H2).
  rewrite rev_involutive. apply string_of_list_ascii_of_string.
Qed.


Lemma safe_str_idempotent val : safe_str (Text (safe_str val)) = safe_str val.
Proof. destruct val as [|s]; simpl; [reflexivity | apply strip_idempotent]. Qed.

Lemma safe_str_nth_normalized row j :
  safe_str (nth j (map (fun v => Text (safe_str v)) row) Missing)
  = safe_str (nth j row Missing).
Proof.
  revert j. induction row as [|x row IH]; intros [|j]; simpl; auto.
  apply (safe_str_idempotent x).
Qed.

Lemma get_row_values_normalize df i n :
  get_row_values (normalize df) i n = get_row_values df i n.
Proof.
  unfold get_row_values, normalize, iloc; simpl. rewrite !length_map.
  destruct (length (data df) <=? i); [reflexivity|].
  apply map_ext. intros j. destruct (j <? length (columns df)); [|reflexivity].
  change (@nil scalar) with (map (fun v => Text (safe_str v)) []) at 1.
  rewrite map_nth. apply safe_str_nth_normalized.
Qed.

Lemma fold_left_ext {A B} (f g : A -> B -> A) l a :
  (forall x y, f x y = g x y) -> fold_left f l a = fold_left g l a.
Proof.
  intros H. revert a. induction l as [|y l IH]; intros a; simpl; [reflexivity|].
  now rewrite H, IH.
Qed.

Lemma build_index_normalize df k n :
  build_index (normalize df) k n = build_index df k n.
Proof.
  unfold build_index. simpl. rewrite length_map.
  apply fold_left_ext. intros index idx.
  now rewrite get_row_values_normalize.
Qed.

Lemma headers_normalize df :
  map safe_str (columns (normalize df)) = map safe_str (columns df).
Proof.
  simpl. rewrite map_map. apply map_ext. intros v. apply safe_str_idempotent.
Qed.

(** X12. The diff sees a frame only through the [safe_str] text of its
    labels and cells: replacing every label and cell of either frame by its
    [safe_str] text (white space stripped, missing values empty) leaves the
    result unchanged. *)
Theorem X12_normalized_frames df1 df2 key_column case_sensitive :
  compare_dataframes (normalize df1) (normalize df2) key_column case_sensitive
  = compare_dataframes df1 df2 key_column case_sensitive
  /\ compare_dataframes (normalize df1) df2 key_column case_sensitive
     = compare_dataframes df1 df2 key_column case_sensitive
  /\ compare_dataframes df1 (normalize df2) key_column case_sensitive
     = compare_dataframes df1 df2 key_column case_sensitive.
Proof.
  assert (G : forall a1 a2 b1 b2,
            (a1 = normalize a2 \/ a1 = a2) -> (b1 = normalize b2 \/ b1 = b2) ->
            compare_dataframes a1 b1 key_column case_sensitive
            = compare_dataframes a2 b2 key_column case_sensitive).
  { intros a1 a2 b1 b2 Ha Hb.
    assert (Ca : map safe_str (columns a1) = map safe_str (columns a2))
      by (destruct Ha as [->| ->]; [apply headers_normalize | reflexivity]).
    assert (Cb : map safe_str (columns b1) = map safe_str (columns b2))
      by (destruct Hb as [->| ->]; [apply headers_normalize | reflexivity]).
    assert (La : length (data a1) = length (data a2))
      by (destruct Ha as [->| ->]; [apply length_map | reflexivity]).
    assert (Lb : length (data b1) = length (data b2))
      by (destruct Hb as [->| ->]; [apply length_map | reflexivity]).
    assert (Ra : forall i n, get_row_values a1 i n = get_row_values a2 i n)
      by (destruct Ha as [->| ->]; [apply get_row_values_normalize | reflexivity]).
    assert (Rb : forall i n, get_row_values b1 i n = get_row_values b2 i n)
      by (destruct Hb as [->| ->]; [apply get_row_values_normalize | reflexivity]).
    assert (Ia : forall k n, build_index a1 k n = build_index a2 k n)
      by (destruct Ha as [->| ->]; [apply build_index_normalize | reflexivity]).
    assert (Ib : forall k n, build_index b1 k n = build_index b2 k n)
      by (destruct Hb as [->| ->]; [apply build_index_normalize | reflexivity]).
    rewrite !compare_dataframes_eq.
    unfold merged_headers_of, diff_rows, max_cols_of, key_rows, position_rows.
    rewrite Ca, Cb, La, Lb. f_equal.
    destruct (key_matching _ _) as [k|].
    - now rewrite Ia, Ib.
    - apply map_ext. intros i. unfold position_row.
      now rewrite La, Lb, !Ra, !Rb. }
  repeat split; apply G; auto.
Qed.

(** ** Merged headers *)

Lemma truthy_or_empty h : (if Py.truthy h then h else "") = h.
Proof.
  unfold Py.truthy. now destruct (String.eqb_spec h "") as [->|].
Qed.

Lemma merge_headers_self h : merge_headers h h (length h) = h.
Proof.
  unfold merge_headers.
  transitivity (map (fun j => nth j h "") (seq 0 (length h)));
    [|now apply map_nth_seq_string].
  apply map_ext. intros i. simpl. now destruct (Py.truthy _).
Qed.

Lemma merge_headers_nil_r h : merge_headers h [] (length h) = h.
Proof.
  unfold merge_headers.
  transitivity (map (fun j => nth j h "") (seq 0 (length h)));
    [|now apply map_nth_seq_string].
  apply map_ext. intros i. simpl. now destruct i.
Qed.

Lemma merge_headers_nil_l h : merge_headers [] h (length h) = h.
Proof.
  unfold merge_headers.
  transitivity (map (fun j => nth j h "") (seq 0 (length h)));
    [|now apply map_nth_seq_string].
  apply map_ext. intros i. cbv zeta.
  replace (nth i [] "") with "" by now destruct i.
  apply truthy_or_empty.
Qed.

(** X13. The merged header of a frame compared with itself, or with the
    empty frame on either side, is the frame's own header (the [safe_str]
    text of its labels). *)
Theorem X13_headers_of_one_frame df key_column case_sensitive :
  headers (compare_dataframes df df key_column case_sensitive)
  = map safe_str (columns df)
  /\ headers (compare_dataframes df empty_frame key_column case_sensitive)
     = map safe_str (columns df)
  /\ headers (compare_dataframes empty_frame df key_column case_sensitive)
     = map safe_str (columns df).
Proof.
  rewrite !compare_dataframes_eq. simpl.
  unfold merged_headers_of, max_cols_of. simpl.
  rewrite Nat.max_id, Nat.max_0_r. repeat split.
  - apply merge_headers_self.
  - apply merge_headers_nil_r.
  - apply merge_headers_nil_l.
Qed.

(** X14. The header of the compare frame wins: when it has at least as many
    labels as the original and none of them is empty, the merged header is
    the header of the compare frame. *)
Theorem X14_compare_header_wins df1 df2 key_column case_sensitive :
  length (columns df1) <= length (columns df2) ->
  Forall (fun h => h <> "") (map safe_str (columns df2)) ->
  headers (compare_dataframes df1 df2 key_column case_sensitive)
  = map safe_str (columns df2).
Proof.
  intros Hlen Hne. rewrite compare_dataframes_eq. simpl.
  unfold merged_headers_of, max_cols_of, merge_headers.
  rewrite !length_map, Nat.max_r by assumption.
  set (h2 := map safe_str (columns df2)) in *.
  transitivity (map (fun j => nth j h2 "") (seq 0 (length (columns df2))));
    [|apply map_nth_seq_string; unfold h2; apply length_map].
  apply map_ext_in. intros i Hi. apply in_seq in Hi. simpl.
  assert (T : Py.truthy (nth i h2 "") = true).
  { apply truthy_spec. rewrite List.Forall_forall in Hne. apply Hne.
    apply nth_In. unfold h2. rewrite length_map. lia. }
  now rewrite T.
Qed.

Lemma X14_compare_header_wins_witness :
  headers (compare_dataframes tableA tableB (Some 0%Z) false)
  = map safe_str (columns tableB).
Proof.
  apply (X14_compare_header_wins tableA tableB (Some 0%Z) false).
  - simpl. lia.
  - vm_compute. repeat constructor; discriminate.
Defined.

(** ** Further properties of [compare_excel_files] *)

Lemma sheet_step_fold_fields sheets1 sheets2 k cs names res :
  let res' := fold_left (sheet_step sheets1 sheets2 k cs) names res in
  file1 res' = file1 res /\ file2 res' = file2 res
  /\ sheet_list res' = sheet_list res
  /\ total_differences (wb_summary res') = total_differences (wb_summary res).
Proof.
  revert res. induction names as [|x names IH]; intros res; simpl; [auto|].
  destruct (IH (sheet_step sheets1 sheets2 k cs res x)) as (A & B & C & D).
  simpl in *. auto.
Qed.

Lemma sheet_step_fold_sheets sheets1 sheets2 k cs names res name :
  sheets (fold_left (sheet_step sheets1 sheets2 k cs) names res) !! name
  = if decide (name ∈ names) then Some (sheet_diff sheets1 sheets2 k cs name)
    else sheets res !! name.
Proof.
  revert res. induction names as [|x names IH]; intros res; cbn [fold_left].
  - destruct (decide (name ∈ [])) as [H|_]; [inversion H | reflexivity].
  - rewrite IH. destruct (decide (name ∈ names)) as [Hin|Hin].
    + rewrite decide_True by now right. reflexivity.
    + cbn [sheets sheet_step]. destruct (decide (name = x)) as [->|Hne].
      * rewrite decide_True by left. now rewrite lookup_insert_eq.
      * rewrite decide_False by (rewrite elem_of_cons; tauto).
        now rewrite lookup_insert_ne.
Qed.

Lemma sheet_step_fold_counts sheets1 sheets2 k cs names res :
  let res' := fold_left (sheet_step sheets1 sheets2 k cs) names res in
  let diff := sheet_diff sheets1 sheets2 k cs in
  wb_added (wb_summary res')
  = wb_added (wb_summary res)
    + sum_over (fun sname => added (summary (diff sname))) names
  /\ wb_deleted (wb_summary res')
     = wb_deleted (wb_summary res)
       + sum_over (fun sname => deleted (summary (diff sname))) names
  /\ wb_modified (wb_summary res')
     = wb_modified (wb_summary res)
       + sum_over (fun sname => modified (summary (diff sname))) names.
Proof.
  revert res. induction names as [|x names IH]; intros res; simpl; [lia|].
  destruct (IH (sheet_step sheets1 sheets2 k cs res x)) as (A & B & C).
  simpl in *. rewrite A, B, C. unfold sheet_diff. lia.
Qed.

(** What [compare_excel_files] returns once the key column is parsed. *)
Lemma workbook_result sheets1 sheets2 file1_name file2_name sheet_name
    key_column case_sensitive k :
  parse_key_column key_column = Ok k ->
  let names := sorted (sheets_to_compare sheets1 sheets2 sheet_name) in
  let diff := sheet_diff sheets1 sheets2 k case_sensitive in
  exists r,
    compare_excel_files sheets1 sheets2 file1_name file2_name sheet_name
      key_column case_sensitive = Ok r
    /\ file1 r = file1_name /\ file2 r = file2_name
    /\ sheet_list r = names
    /\ (forall name,
          sheets r !! name
          = if decide (name ∈ names) then Some (diff name) else None)
    /\ wb_added (wb_summary r)
       = sum_over (fun sname => added (summary (diff sname))) names
    /\ wb_deleted (wb_summary r)
       = sum_over (fun sname => deleted (summary (diff sname))) names
    /\ wb_modified (wb_summary r)
       = sum_over (fun sname => modified (summary (diff sname))) names
    /\ total_differences (wb_summary r)
       = wb_added (wb_summary r) + wb_deleted (wb_summary r)
         + wb_modified (wb_summary r).
Proof.
  intros Hp names diff. unfold compare_excel_files. rewrite Hp.
  fold names.
  set (res0 := {| file1 := file1_name; file2 := file2_name; sheets := ∅;
                  sheet_list := names;
                  wb_summary := {| total_differences := 0; wb_added := 0;
                                   wb_deleted := 0; wb_modified := 0 |} |}).
  destruct (sheet_step_fold_fields sheets1 sheets2 k case_sensitive names res0)
    as (F1 & F2 & F3 & _).
  destruct (sheet_step_fold_counts sheets1 sheets2 k case_sensitive names res0)
    as (A & B & C).
  eexists. split; [reflexivity|]. simpl.
  repeat split; try assumption.
  intros name. rewrite sheet_step_fold_sheets. simpl.
  now rewrite lookup_empty.
Qed.

(** X15. When the key column parses, [compare_excel_files] returns a
    result whose "sheet_list" is the sorted list of the sheets to compare,
    whose "sheets" holds, for exactly these names, the diff of the two
    sheets of that name (the empty frame standing for a missing sheet), and
    whose summary adds up the added, deleted and modified counts of these
    diffs, "total_differences" being their sum. *)
Theorem X15_workbook_result sheets1 sheets2 file1_name file2_name sheet_name
    key_column case_sensitive k :
  parse_key_column key_column = Ok k ->
  let names := sorted (sheets_to_compare sheets1 sheets2 sheet_name) in
  let diff := sheet_diff sheets1 sheets2 k case_sensitive in
  exists r,
    compare_excel_files sheets1 sheets2 file1_name file2_name sheet_name
      key_column case_sensitive = Ok r
    /\ file1 r = file1_name /\ file2 r = file2_name
    /\ sheet_list r = names
    /\ (forall name,
          sheets r !! name
          = if decide (name ∈ names) then Some (diff name) else None)
    /\ wb_added (wb_summary r)
       = sum_over (fun sname => added (summary (diff sname))) names
    /\ wb_deleted (wb_summary r)
       = sum_over (fun sname => deleted (summary (diff sname))) names
    /\ wb_modified (wb_summary r)
       = sum_over (fun sname => modified (summary (diff sname))) names
    /\ total_differences (wb_summary r)
       = wb_added (wb_summary r) + wb_deleted (wb_summary r)
         + wb_modified (wb_summary r).
Proof. apply workbook_result. Qed.

Lemma X15_workbook_result_witness :
  let sheets1 : gmap string DataFrame := {[ "s" := tableA ]} in
  let sheets2 : gmap string DataFrame := {[ "s" := tableB ]} in
  let names := sorted (sheets_to_compare sheets1 sheets2 None) in
  let diff := sheet_diff sheets1 sheets2 (Some 0%Z) true in
  exists r,
    compare_excel_files sheets1 sheets2 "a.xlsx" "b.xlsx" None (Some "A") true
    = Ok r
    /\ file1 r = "a.xlsx" /\ file2 r = "b.xlsx"
    /\ sheet_list r = names
    /\ (forall name,
          sheets r !! name
          = if decide (name ∈ names) then Some (diff name) else None)
    /\ wb_added (wb_summary r)
       = sum_over (fun sname => added (summary (diff sname))) names
    /\ wb_deleted (wb_summary r)
       = sum_over (fun sname => deleted (summary (diff sname))) names
    /\ wb_modified (wb_summary r)
       = sum_over (fun sname => modified (summary (diff sname))) names
    /\ total_differences (wb_summary r)
       = wb_added (wb_summary r) + wb_deleted (wb_summary r)
         + wb_modified (wb_summary r).
Proof.
  intros sheets1 sheets2.
  apply (X15_workbook_result sheets1 sheets2 "a.xlsx" "b.xlsx" None
           (Some "A") true (Some 0%Z)).
  reflexivity.
Defined.

Lemma elem_of_sheets_to_compare sheets1 sheets2 sheet_name name :
  name ∈ sheets_to_compare sheets1 sheets2 sheet_name
  <-> (is_Some (sheets1 !! name) \/ is_Some (sheets2 !! name))
      /\ selected sheet_name name.
Proof.
  assert (G : name ∈ elements (dom sheets1 ∪ dom sheets2)
              <-> is_Some (sheets1 !! name) \/ is_Some (sheets2 !! name)).
  { now rewrite elem_of_elements, elem_of_union, !elem_of_dom. }
  unfold sheets_to_compare, selected.
  destruct sheet_name as [s|]; [|rewrite G; tauto].
  destruct (Py.truthy s && negb (String.eqb s "all")); [|rewrite G; tauto].
  set (b := bool_decide (is_Some (sheets1 !! s))
            || bool_decide (is_Some (sheets2 !! s))).
  assert (Hb : b = true
               <-> is_Some (sheets1 !! s) \/ is_Some (sheets2 !! s)).
  { unfold b. rewrite orb_true_iff, !bool_decide_eq_true. tauto. }
  destruct b.
  - rewrite list_elem_of_singleton. split.
    + intros ->. split; [now apply Hb | reflexivity].
    + now intros [_ H].
  - split; [intros H; inversion H|].
    intros [H ->]. apply Hb in H. discriminate.
Qed.

Lemma NoDup_sheets_to_compare sheets1 sheets2 sheet_name :
  NoDup (sheets_to_compare sheets1 sheets2 sheet_name).
Proof.
  unfold sheets_to_compare.
  destruct sheet_name as [s|]; [|apply NoDup_elements].
  destruct (_ && _); [|apply NoDup_elements].
  destruct (_ || _); [apply NoDup_singleton | apply NoDup_nil_2].
Qed.

(** X16. The "sheet_list" that [compare_excel_files] works through is
    sorted, has no repetition, and holds exactly the names that are a sheet
    of at least one workbook and pass the sheet selector. *)
Theorem X16_sheet_list sheets1 sheets2 sheet_name :
  let names := sorted (sheets_to_compare sheets1 sheets2 sheet_name) in
  Sorted str_le names
  /\ NoDup names
  /\ forall name,
       name ∈ names
       <-> (is_Some (sheets1 !! name) \/ is_Some (sheets2 !! name))
           /\ selected sheet_name name.
Proof.
  cbv zeta. unfold sorted. split; [apply Sorted_merge_sort, _|].
  split.
  - rewrite merge_sort_Permutation. apply NoDup_sheets_to_compare.
  - intros name. rewrite merge_sort_Permutation.
    apply elem_of_sheets_to_compare.
Qed.

(** X17. A sheet selector that names a sheet of neither workbook is no
    error: no sheet is compared and every count is zero. *)
Theorem X17_unknown_sheet sheets1 sheets2 file1_name file2_name name
    key_column case_sensitive k :
  parse_key_column key_column = Ok k ->
  name <> "" -> name <> "all" ->
  sheets1 !! name = None -> sheets2 !! name = None ->
  compare_excel_files sheets1 sheets2 file1_name file2_name (Some name)
    key_column case_sensitive
  = Ok (empty_workbook_diff file1_name file2_name).
Proof.
  intros Hp Hne Hall H1 H2. unfold compare_excel_files, sheets_to_compare.
  rewrite Hp, H1, H2.
  apply truthy_spec in Hne. apply String.eqb_neq in Hall.
  rewrite Hne, Hall. reflexivity.
Qed.

Lemma X17_unknown_sheet_witness :
  compare_excel_files {[ "s" := tableA ]} {[ "s" := tableB ]}
    "a.xlsx" "b.xlsx" (Some "t") (Some "1") false
  = Ok (empty_workbook_diff "a.xlsx" "b.xlsx").
Proof.
  apply (X17_unknown_sheet {[ "s" := tableA ]} {[ "s" := tableB ]}
           "a.xlsx" "b.xlsx" "t" (Some "1") false (Some 0%Z)).
  - reflexivity.
  - discriminate.
  - discriminate.
  - reflexivity.
  - reflexivity.
Defined.

Lemma sum_over_ext (f g : string -> nat) names :
  (forall sname, f sname = g sname) -> sum_over f names = sum_over g names.
Proof.
  intros H. induction names as [|x names IH]; simpl; [reflexivity|].
  now rewrite H, IH.
Qed.

Lemma sum_over_zero names : sum_over (fun _ => 0) names = 0.
Proof. induction names as [|x names IH]; simpl; auto. Qed.

Lemma self_diff_rows df key_column cs :
  Forall (fun r => row_status r = Same) (diff_rows df df key_column cs).
Proof.
  unfold diff_rows. destruct (key_matching _ _) as [k|].
  - apply Forall_forall. intros r Hr. unfold key_rows in Hr.
    apply list_elem_of_omap in Hr as (key & _ & Hr). unfold key_row in Hr.
    destruct (dict_get key _) as [[i row]|]; [|discriminate].
    injection Hr as <-. apply compared_row_self.
  - unfold position_rows. apply List.Forall_map, List.Forall_forall.
    intros i Hi. apply in_seq in Hi. unfold position_row.
    destruct (Nat.ltb_spec i (length (data df))); simpl; [|lia].
    apply compared_row_self.
Qed.

Lemma self_diff_counts df key_column cs :
  let s := summary (compare_dataframes df df key_column cs) in
  added s = 0 /\ deleted s = 0 /\ modified s = 0.
Proof.
  cbv zeta. rewrite compare_dataframes_eq. simpl.
  repeat split; apply count_status_none;
    (eapply Forall_impl; [apply self_diff_rows|]); simpl; congruence.
Qed.

(** X18. A workbook compared with itself has no difference: whatever the
    sheet selector, key column and case sensitivity are, the added, deleted
    and modified counts and "total_differences" are zero. *)
Theorem X18_workbook_self_comparison sheets file1_name file2_name sheet_name
    key_column case_sensitive k :
  parse_key_column key_column = Ok k ->
  exists r,
    compare_excel_files sheets sheets file1_name file2_name sheet_name
      key_column case_sensitive = Ok r
    /\ total_differences (wb_summary r) = 0
    /\ wb_added (wb_summary r) = 0
    /\ wb_deleted (wb_summary r) = 0
    /\ wb_modified (wb_summary r) = 0.
Proof.
  intros Hp.
  destruct (workbook_result sheets sheets file1_name file2_name sheet_name
              key_column case_sensitive k Hp)
    as (r & Hr & _ & _ & _ & _ & A & B & C & T).
  assert (Z : forall name,
            let s := summary (sheet_diff sheets sheets k case_sensitive name) in
            added s = 0 /\ deleted s = 0 /\ modified s = 0).
  { intros name. apply self_diff_counts. }
  rewrite (sum_over_ext _ (fun _ => 0)), sum_over_zero in A by (intros; apply Z).
  rewrite (sum_over_ext _ (fun _ => 0)), sum_over_zero in B by (intros; apply Z).
  rewrite (sum_over_ext _ (fun _ => 0)), sum_over_zero in C by (intros; apply Z).
  exists r. rewrite T, A, B, C. auto.
Qed.

Lemma X18_workbook_self_comparison_witness :
  exists r,
    compare_excel_files {[ "s" := tableD ]} {[ "s" := tableD ]}
      "a.xlsx" "a.xlsx" (Some "all") (Some "a") false = Ok r
    /\ total_differences (wb_summary r) = 0
    /\ wb_added (wb_summary r) = 0
    /\ wb_deleted (wb_summary r) = 0
    /\ wb_modified (wb_summary r) = 0.
Proof.
  apply (X18_workbook_self_comparison {[ "s" := tableD ]} "a.xlsx" "a.xlsx"
           (Some "all") (Some "a") false (Some 0%Z)).
  reflexivity.
Defined.

Lemma sheets_to_compare_comm sheets1 sheets2 sheet_name :
  sheets_to_compare sheets2 sheets1 sheet_name
  = sheets_to_compare sheets1 sheets2 sheet_name.
Proof.
  unfold sheets_to_compare.
  rewrite (union_comm_L (dom sheets2) (dom sheets1)).
  destruct sheet_name as [s|]; [|reflexivity].
  now rewrite (orb_comm (bool_decide (is_Some (sheets2 !! s)))).
Qed.

(** X19. Swapping the two workbooks keeps the sheet list and the modified
    and total counts of the workbook summary and exchanges its added and
    deleted counts. *)
Theorem X19_workbook_swap sheets1 sheets2 file1_name file2_name sheet_name
    key_column case_sensitive k :
  parse_key_column key_column = Ok k ->
  exists r r',
    compare_excel_files sheets1 sheets2 file1_name file2_name sheet_name
      key_column case_sensitive = Ok r
    /\ compare_excel_files sheets2 sheets1 file2_name file1_name sheet_name
         key_column case_sensitive = Ok r'
    /\ sheet_list r' = sheet_list r
    /\ wb_added (wb_summary r') = wb_deleted (wb_summary r)
    /\ wb_deleted (wb_summary r') = wb_added (wb_summary r)
    /\ wb_modified (wb_summary r') = wb_modified (wb_summary r)
    /\ total_differences (wb_summary r') = total_differences (wb_summary r).
Proof.
  intros Hp.
  destruct (workbook_result sheets1 sheets2 file1_name file2_name sheet_name
              key_column case_sensitive k Hp)
    as (r & Hr & _ & _ & L & _ & A & B & C & T).
  destruct (workbook_result sheets2 sheets1 file2_name file1_name sheet_name
              key_column case_sensitive k Hp)
    as (r' & Hr' & _ & _ & L' & _ & A' & B' & C' & T').
  rewrite sheets_to_compare_comm in L', A', B', C'.
  assert (S : forall name,
            let ab := summary (sheet_diff sheets1 sheets2 k case_sensitive name) in
            let ba := summary (sheet_diff sheets2 sheets1 k case_sensitive name) in
            added ba = deleted ab /\ deleted ba = added ab
            /\ modified ba = modified ab).
  { intros name.
    destruct (summary_swap (default empty_frame (sheets1 !! name))
                (default empty_frame (sheets2 !! name)) k case_sensitive)
      as (H1 & H2 & H3 & _).
    unfold sheet_diff. auto. }
  rewrite (sum_over_ext _ (fun n => deleted (summary
             (sheet_diff sheets1 sheets2 k case_sensitive n)))) in A'
    by (intros; apply S).
  rewrite (sum_over_ext _ (fun n => added (summary
             (sheet_diff sheets1 sheets2 k case_sensitive n)))) in B'
    by (intros; apply S).
  rewrite (sum_over_ext _ (fun n => modified (summary
             (sheet_diff sheets1 sheets2 k case_sensitive n)))) in C'
    by (intros; apply S).
  exists r, r'. rewrite T, T', A', B', C', A, B, C, L, L'.
  repeat split; try assumption; lia.
Qed.

Lemma X19_workbook_swap_witness :
  exists r r',
    compare_excel_files {[ "s" := tableA ]} {[ "t" := tableB ]}
      "a.xlsx" "b.xlsx" None None true = Ok r
    /\ compare_excel_files {[ "t" := tableB ]} {[ "s" := tableA ]}
         "b.xlsx" "a.xlsx" None None true = Ok r'
    /\ sheet_list r' = sheet_list r
    /\ wb_added (wb_summary r') = wb_deleted (wb_summary r)
    /\ wb_deleted (wb_summary r') = wb_added (wb_summary r)
    /\ wb_modified (wb_summary r') = wb_modified (wb_summary r)
    /\ total_differences (wb_summary r') = total_differences (wb_summary r).
Proof.
  apply (X19_workbook_swap {[ "s" := tableA ]} {[ "t" := tableB ]}
           "a.xlsx" "b.xlsx" None None true None).
  reflexivity.
Defined.

(** ** The key-column specification *)

(** X20. Each of the letters A to Z, in upper or lower case, selects the
    column of its place in the alphabet, counted from zero. *)
Theorem X20_letter_columns :
  Forall (fun i =>
            parse_key_column (Some (upper_letter i)) = Ok (Some (Z.of_nat i))
            /\ parse_key_column (Some (lower_letter i)) = Ok (Some (Z.of_nat i)))
         (seq 0 26).
Proof.
  cbv [seq].
  repeat (apply List.Forall_cons; [split; vm_compute; reflexivity|]).
  apply List.Forall_nil.
Qed.

Lemma upper_char_ascii c :
  is_ascii c -> exists n, Py.upper_char c = [n] /\ (n < 128)%N.
Proof.
  unfold is_ascii, Py.upper_char, Py.between. intros H.
  repeat match goal with
         | |- context [(?a <=? ?b)%N] => destruct (N.leb_spec a b)
         | |- context [(?a =? ?b)%N] => destruct (N.eqb_spec a b)
         end; simpl; try lia; eexists; (split; [reflexivity | lia]).
Qed.

Lemma upper_ascii l :
  Forall is_ascii l ->
  length (flat_map Py.upper_char l) = length l
  /\ Forall (fun n => (n < 128)%N) (flat_map Py.upper_char l).
Proof.
  induction 1 as [|c l Hc _ [IH1 IH2]]; simpl; [split; [reflexivity|constructor]|].
  destruct (upper_char_ascii c Hc) as (n & -> & Hn). simpl.
  split; [now rewrite IH1 | now constructor].
Qed.

Lemma isdigit_ascii_decimal u :
  Forall (fun n => (n < 128)%N) u ->
  forallb Py.isdigit_cp u = true -> forallb Py.isdecimal_cp u = true.
Proof.
  induction 1 as [|n u Hn _ IH]; simpl; [reflexivity|].
  rewrite !andb_true_iff. intros [D H]. split; [|now apply IH].
  unfold Py.isdigit_cp in D. destruct (Py.isdecimal_cp n); [reflexivity|].
  simpl in D.
  destruct (N.eqb_spec n 178), (N.eqb_spec n 179), (N.eqb_spec n 185);
    simpl in D; try lia; discriminate.
Qed.

Lemma lstrip_Forall (P : ascii -> Prop) l :
  Forall P l -> Forall P (Py.lstrip l) /\ length (Py.lstrip l) <= length l.
Proof.
  induction 1 as [|c l Hc H [IH1 IH2]]; simpl; [split; [constructor | lia]|].
  destruct (Py.isspace c); [split; [assumption | lia]|].
  split; [now constructor | simpl; lia].
Qed.

Lemma length_list_ascii s : length (list_ascii_of_string s) = String.length s.
Proof. induction s as [|c s IH]; simpl; [reflexivity | now rewrite IH]. Qed.

Lemma strip_ascii spec :
  Forall is_ascii (list_ascii_of_string spec) ->
  Forall is_ascii (list_ascii_of_string (Py.strip spec))
  /\ length (list_ascii_of_string (Py.strip spec)) <= String.length spec.
Proof.
  intros H. unfold Py.strip. rewrite list_ascii_of_string_of_list_ascii.
  destruct (lstrip_Forall is_ascii _ H) as [H1 L1].
  assert (H1' : Forall is_ascii (rev (Py.lstrip (list_ascii_of_string spec))))
    by (apply List.Forall_rev; exact H1).
  destruct (lstrip_Forall is_ascii _ H1') as [H2 L2].
  split; [apply List.Forall_rev; exact H2|].
  rewrite length_rev in *. rewrite length_list_ascii in L1. lia.
Qed.

(** X21. A key-column specification of ASCII characters, no longer than
    the digit limit of [int], never raises: it parses to an index or to no
    key column. *)
Theorem X21_ascii_specification_parses spec :
  Forall is_ascii (list_ascii_of_string spec) ->
  String.length spec <= Py.int_max_str_digits ->
  exists k, parse_key_column (Some spec) = Ok k.
Proof.
  intros Ha Hl. unfold parse_key_column.
  destruct (Py.truthy spec); [|eauto].
  destruct (strip_ascii spec Ha) as [Hs Ls].
  destruct (upper_ascii _ Hs) as [Lu Hu]. fold (Py.upper (Py.strip spec)) in *.
  set (u := Py.upper (Py.strip spec)) in *.
  destruct (Py.isdigit u) eqn:D.
  - assert (I : exists v, Py.int u = Some v).
    { unfold Py.int, Py.isdigit in *. destruct u as [|n u']; [discriminate|].
      rewrite (isdigit_ascii_decimal _ Hu D).
      assert (Hle : length (n :: u') <=? Py.int_max_str_digits = true)
        by (apply Nat.leb_le; lia).
      rewrite Hle. simpl. eauto. }
    destruct I as [v ->]. eauto.
  - destruct (_ && _); eauto.
Qed.

Lemma X21_ascii_specification_parses_witness :
  exists k, parse_key_column (Some "12") = Ok k.
Proof.
  apply (X21_ascii_specification_parses "12").
  - repeat constructor.
  - apply Nat.leb_le. vm_compute. reflexivity.
Defined.

Lemma length_first_new s l : length (first_new s l) <= length l.
Proof.
  revert s. induction l as [|k l IH]; intros s; simpl; [lia|].
  destruct (decide (k ∈ s)); simpl.
  - specialize (IH s). lia.
  - specialize (IH (k :: s)). lia.
Qed.

Lemma length_non_empty_keys df k n :
  length (non_empty_keys (key_values df k n)) <= length (data df).
Proof.
  unfold non_empty_keys, key_values.
  etransitivity; [apply length_filter|].
  now rewrite length_map, length_seq.
Qed.

(** X22. A sheet diff never has more rows than the two frames together,
    whatever the matching strategy is. *)
Theorem X22_row_count_bound df1 df2 key_column case_sensitive :
  let d := compare_dataframes df1 df2 key_column case_sensitive in
  length (rows d) <= length (data df1) + length (data df2)
  /\ total_rows (summary d) <= length (data df1) + length (data df2).
Proof.
  cbv zeta. rewrite compare_dataframes_eq. simpl.
  assert (G : length (diff_rows df1 df2 key_column case_sensitive)
              <= length (data df1) + length (data df2)).
  { unfold diff_rows. destruct (key_matching _ _) as [k|].
    - rewrite length_key_rows, all_keys_build_index, length_app.
      pose proof (length_first_new []
                    (non_empty_keys (key_values df1 k (max_cols_of df1 df2)))).
      pose proof (length_first_new
                    (non_empty_keys (key_values df1 k (max_cols_of df1 df2)))
                    (non_empty_keys (key_values df2 k (max_cols_of df1 df2)))).
      pose proof (length_non_empty_keys df1 k (max_cols_of df1 df2)).
      pose proof (length_non_empty_keys df2 k (max_cols_of df1 df2)).
      lia.
    - rewrite length_position_rows. lia. }
  split; exact G.
Qed.

Lemma digit_chars (d : Decimal.uint) :
  Forall digit_char (list_ascii_of_string (NilEmpty.string_of_uint d)).
Proof.
  induction d; simpl; constructor; try assumption; now repeat split.
Qed.

Lemma strip_no_space s :
  Forall (fun c => Py.isspace c = false) (list_ascii_of_string s) ->
  Py.strip s = s.
Proof.
  intros H.
  assert (G : forall l, Forall (fun c => Py.isspace c = false) l ->
                        Py.lstrip l = l).
  { intros l Hl. apply lstrip_fixed. now destruct Hl. }
  unfold Py.strip. rewrite (G _ H), (G _ (List.Forall_rev H)), rev_involutive.
  apply string_of_list_ascii_of_string.
Qed.

Lemma upper_digits l :
  Forall digit_char l -> flat_map Py.upper_char l = map Py.ord l.
Proof.
  induction 1 as [|c l (_ & U & _) _ IH]; simpl; [reflexivity|].
  now rewrite U, IH.
Qed.

Lemma int_fold_digits (d : Decimal.uint) acc :
  (0 <= acc)%Z ->
  fold_left (fun acc d => (10 * acc + (Z.of_N d - 48))%Z)
            (map Py.ord (list_ascii_of_string (NilEmpty.string_of_uint d))) acc
  = Z.of_nat (Nat.of_uint_acc d (Z.to_nat acc)).
Proof.
  revert acc. induction d; intros acc Hacc; simpl;
    [lia | rewrite IHd by lia; rewrite Nat.tail_mul_spec; do 2 f_equal; lia ..].
Qed.

(** X23. A decimal number is a 1-based column: a non-empty string of
    decimal digits, leading zeros allowed and no longer than the digit
    limit of [int], selects the column of its value minus one. *)
Theorem X23_decimal_columns (d : Decimal.uint) :
  d <> Decimal.Nil ->
  String.length (NilEmpty.string_of_uint d) <= Py.int_max_str_digits ->
  parse_key_column (Some (NilEmpty.string_of_uint d))
  = Ok (Some (Z.of_nat (Nat.of_uint d) - 1)%Z).
Proof.
  intros Hd Hl. set (s := NilEmpty.string_of_uint d) in *.
  pose proof (digit_chars d) as Hc. fold s in Hc.
  assert (Hsp : Forall (fun c => Py.isspace c = false) (list_ascii_of_string s))
    by (eapply Forall_impl; [exact Hc|]; now intros c [? _]).
  assert (Hdec : forallb Py.isdecimal_cp (map Py.ord (list_ascii_of_string s))
                 = true).
  { apply forallb_forall. intros n Hn. apply in_map_iff in Hn as (c & <- & Hin).
    rewrite List.Forall_forall in Hc. now apply Hc. }
  assert (Hdig : forallb Py.isdigit_cp (map Py.ord (list_ascii_of_string s))
                 = true).
  { apply forallb_forall. intros n Hn. unfold Py.isdigit_cp.
    rewrite forallb_forall in Hdec. now rewrite (Hdec n Hn). }
  assert (Hne : exists n u, map Py.ord (list_ascii_of_string s) = n :: u).
  { subst s. destruct d; simpl; eauto. congruence. }
  unfold parse_key_column.
  replace (Py.truthy s) with true
    by (subst s; destruct d; [congruence | reflexivity ..]).
  rewrite (strip_no_space s Hsp). unfold Py.upper.
  rewrite (upper_digits _ Hc).
  pose proof (int_fold_digits d 0 (Z.le_refl 0)) as F. fold s in F.
  assert (Hlen : length (map Py.ord (list_ascii_of_string s))
                 <=? Py.int_max_str_digits = true).
  { apply Nat.leb_le. now rewrite length_map, length_list_ascii. }
  destruct Hne as (n & u & E). unfold Py.isdigit, Py.int.
  rewrite E in *. rewrite Hdig, Hdec, Hlen, F. reflexivity.
Qed.

Lemma X23_decimal_columns_witness :
  parse_key_column (Some "012") = Ok (Some 11%Z).
Proof.
  apply (X23_decimal_columns (Decimal.D0 (Decimal.D1 (Decimal.D2 Decimal.Nil)))).
  - discriminate.
  - apply Nat.leb_le. vm_compute. reflexivity.
Defined.

Lemma against_empty_counts df k cs :
  let s := summary (compare_dataframes df empty_frame k cs) in
  added s = 0 /\ modified s = 0 /\ deleted s = total_rows s.
Proof.
  cbv zeta. destruct (rows_against_empty df k cs) as [D _].
  rewrite compare_dataframes_eq in *. simpl in *.
  repeat split; try (now apply count_status_all);
    apply count_status_none; (eapply Forall_impl; [exact D|]); simpl;
    congruence.
Qed.

(** X24. A selected sheet that only the first workbook has is compared
    with the empty frame: it is the one entry of the result, its rows are
    all deleted, and the workbook summary counts them as deleted and as the
    total of the differences. *)
Theorem X24_sheet_of_one_workbook sheets1 sheets2 file1_name file2_name name df
    key_column case_sensitive k :
  parse_key_column key_column = Ok k ->
  name <> "" -> name <> "all" ->
  sheets1 !! name = Some df -> sheets2 !! name = None ->
  let diff := compare_dataframes df empty_frame k case_sensitive in
  exists r,
    compare_excel_files sheets1 sheets2 file1_name file2_name (Some name)
      key_column case_sensitive = Ok r
    /\ sheet_list r = [name]
    /\ sheets r !! name = Some diff
    /\ Forall (fun row => row_status row = Deleted) (rows diff)
    /\ wb_added (wb_summary r) = 0
    /\ wb_modified (wb_summary r) = 0
    /\ wb_deleted (wb_summary r) = length (rows diff)
    /\ total_differences (wb_summary r) = length (rows diff).
Proof.
  intros Hp Hne Hall H1 H2 diff.
  destruct (workbook_result sheets1 sheets2 file1_name file2_name (Some name)
              key_column case_sensitive k Hp)
    as (r & Hr & _ & _ & L & S & A & B & C & T).
  assert (N : sheets_to_compare sheets1 sheets2 (Some name) = [name]).
  { unfold sheets_to_compare. apply truthy_spec in Hne.
    apply String.eqb_neq in Hall. rewrite Hne, Hall, H1. reflexivity. }
  rewrite N in *. change (sorted [name]) with [name] in *.
  assert (D : sheet_diff sheets1 sheets2 k case_sensitive name = diff).
  { unfold sheet_diff. now rewrite H1, H2. }
  simpl in A, B, C. rewrite D in A, B, C.
  destruct (against_empty_counts df k case_sensitive) as (Ha & Hm & Hd).
  fold diff in Ha, Hm, Hd.
  assert (Tl : total_rows (summary diff) = length (rows diff)).
  { unfold diff. now rewrite compare_dataframes_eq. }
  exists r. repeat split; try assumption.
  - rewrite S, decide_True by left. now rewrite D.
  - apply rows_against_empty.
  - lia.
  - lia.
  - lia.
  - lia.
Qed.

Lemma X24_sheet_of_one_workbook_witness :
  let diff := compare_dataframes tableA empty_frame None true in
  exists r,
    compare_excel_files {[ "s" := tableA ]} ∅ "a.xlsx" "b.xlsx" (Some "s")
      None true = Ok r
    /\ sheet_list r = ["s"]
    /\ sheets r !! "s" = Some diff
    /\ Forall (fun row => row_status row = Deleted) (rows diff)
    /\ wb_added (wb_summary r) = 0
    /\ wb_modified (wb_summary r) = 0
    /\ wb_deleted (wb_summary r) = length (rows diff)
    /\ total_differences (wb_summary r) = length (rows diff).
Proof.
  apply (X24_sheet_of_one_workbook {[ "s" := tableA ]} ∅ "a.xlsx" "b.xlsx"
           "s" tableA None true None).
  - reflexivity.
  - discriminate.
  - discriminate.
  - reflexivity.
  - reflexivity.
Defined.
